(** * cloudbridge, AWS provider: resource adapter and instance launch

    A shallow embedding of [cloudbridge/cloud/providers/aws/services.py]:
    the generic [EC2ServiceFilter] adapter, the services built on it that
    wait for a created resource, and [AWSInstanceService] (topology
    resolution, block device mapping, launch).

    Python code runs here in a state-and-exception monad.  The state is
    the history of the session with the provider: the seconds spent in
    [time.sleep] and the calls issued so far.  The provider itself is a
    family of oracles that answer a call from that history, so a resource
    may become visible late and a call may fail. *)

From Stdlib Require Import ZArith QArith Qround Lqa.
From stdpp Require Import base gmap strings list pretty.

(** ** Python values *)

(** [bool(s)] for a [str]: only the empty string is false. *)
Definition truthy_str (s : string) : bool :=
  match s with EmptyString => false | String _ _ => true end.

(** [bool(x)] for a value that is [None] or a [str]. *)
Definition truthy (x : option string) : bool :=
  match x with Some s => truthy_str s | None => false end.

(** The string held by a truthy value. *)
Definition str_value (x : option string) : string := default EmptyString x.

(** [bool(x)] for a value that is [None] or an [int]. *)
Definition truthy_int (x : option Z) : bool :=
  match x with Some n => negb (n =? 0)%Z | None => false end.

(** Keyword arguments handed to a provider method. *)
Inductive PyVal :=
| PyStr (s : string)
| PyInt (n : Z)
| PyNone.

Definition of_opt_int (x : option Z) : PyVal :=
  match x with Some n => PyInt n | None => PyNone end.

Definition kwargs := list (string * PyVal).

(** The three results of [wait_for_create]: [True], [False], [None]. *)
Inductive Tristate := PyTrue | PyFalse | PyNothing.

Definition truthy_tri (t : Tristate) : bool :=
  match t with PyTrue => true | _ => false end.

(** ** Exceptions *)

Inductive Message :=
| ZoneMismatch        (* Requested placement zone must match specified subnet's availability zone *)
| MultipleMatches     (* Multiple matches for VPC security group(s) *)
| MustBeInVPC         (* Supplied security group(s) must be associated with a VPC *)
| NoDefaultVPC        (* No default VPC exists. Supply a subnet to launch into *)
| NoneHasNoAttribute. (* 'NoneType' object has no attribute ... *)

Inductive Exception :=
| ValueError (m : Message)
| AttributeError (m : Message)
| InvalidConfigurationException
| UnboundLocalError (var : string)
| IndexError
| TypeError
| StopIteration
| EC2ResponseError.

(** The error classes of the specification. *)
Inductive ErrorClass := Conflict | Configuration.

Definition classify (e : Exception) : option ErrorClass :=
  match e with
  | ValueError ZoneMismatch => Some Conflict
  | ValueError MultipleMatches => Some Conflict
  | AttributeError MustBeInVPC => Some Conflict
  | AttributeError NoDefaultVPC => Some Configuration
  | InvalidConfigurationException => Some Configuration
  | _ => None
  end.

(** ** Provider resources *)

Record Subnet := {
  sn_id : string;
  sn_vpc_id : string;
  availability_zone : string
}.

(** A network exposes its default flag and its subnets, in the order the
    provider returns them ([vpc.subnets()]). *)
Record Vpc := {
  vpc_ident : string;
  is_default : bool;
  subnets : list Subnet
}.

Record SecGroup := {
  sg_ident : string;
  sg_name : string;
  sg_vpc_id : option string
}.

Record Volume := {
  vol_id : string;
  vol_description : option string
}.

Record Snapshot := {
  snap_id : string;
  snap_description : option string
}.

Record Reservation := { instances : list string }.

(** Every resource, wrapped or not, has an [id]. *)
Class Resource (Raw : Type) := id_of : Raw -> string.
#[global] Instance Subnet_resource : Resource Subnet := sn_id.
#[global] Instance Vpc_resource : Resource Vpc := vpc_ident.
#[global] Instance SecGroup_resource : Resource SecGroup := sg_ident.
#[global] Instance Volume_resource : Resource Volume := vol_id.
#[global] Instance Snapshot_resource : Resource Snapshot := snap_id.

(** ** Block devices *)

Inductive Source :=
| SrcSnapshot (id : string)
| SrcVolume (id : string)
| SrcImage (id : string)
| SrcNone.

Record Device := {
  is_volume : bool;
  is_root : bool;
  source : Source;
  size : option Z;
  delete_on_terminate : bool
}.

Record LaunchConfig := {
  block_devices : list Device;
  network_interfaces : list string
}.

Record BlockDeviceType := {
  bd_snapshot_id : option string;
  bd_volume_id : option string;
  bd_ephemeral_name : option string;
  bd_delete_on_terminate : bool;
  bd_size : option Z
}.

(** [BlockDeviceType()] *)
Definition new_bd_type : BlockDeviceType :=
  {| bd_snapshot_id := None; bd_volume_id := None; bd_ephemeral_name := None;
     bd_delete_on_terminate := false; bd_size := None |}.

Definition set_snapshot_id (v : string) (b : BlockDeviceType) :=
  {| bd_snapshot_id := Some v; bd_volume_id := bd_volume_id b;
     bd_ephemeral_name := bd_ephemeral_name b;
     bd_delete_on_terminate := bd_delete_on_terminate b; bd_size := bd_size b |}.

Definition set_volume_id (v : string) (b : BlockDeviceType) :=
  {| bd_snapshot_id := bd_snapshot_id b; bd_volume_id := Some v;
     bd_ephemeral_name := bd_ephemeral_name b;
     bd_delete_on_terminate := bd_delete_on_terminate b; bd_size := bd_size b |}.

Definition set_ephemeral_name (v : string) (b : BlockDeviceType) :=
  {| bd_snapshot_id := bd_snapshot_id b; bd_volume_id := bd_volume_id b;
     bd_ephemeral_name := Some v;
     bd_delete_on_terminate := bd_delete_on_terminate b; bd_size := bd_size b |}.

Definition set_delete_on_terminate (v : bool) (b : BlockDeviceType) :=
  {| bd_snapshot_id := bd_snapshot_id b; bd_volume_id := bd_volume_id b;
     bd_ephemeral_name := bd_ephemeral_name b;
     bd_delete_on_terminate := v; bd_size := bd_size b |}.

Definition set_size (v : Z) (b : BlockDeviceType) :=
  {| bd_snapshot_id := bd_snapshot_id b; bd_volume_id := bd_volume_id b;
     bd_ephemeral_name := bd_ephemeral_name b;
     bd_delete_on_terminate := bd_delete_on_terminate b; bd_size := Some v |}.

(** Boto's [BlockDeviceMapping] is a dict from device name to
    [BlockDeviceType]. *)
Abbreviation BlockDeviceMapping := (gmap string BlockDeviceType).

(** Arguments of [ec2_conn.run_instances]. *)
Record RunArgs := {
  ra_image_id : string;
  ra_instance_type : string;
  ra_placement : option string;
  ra_key_name : option string;
  ra_security_group_ids : list string;
  ra_user_data : option string;
  ra_block_device_map : option BlockDeviceMapping;
  ra_subnet_id : option string
}.

(** ** The session with the provider *)

Inductive Event :=
| Sleep (secs : Z)                                   (* time.sleep(secs) *)
| Filter (service filter_name val : string)          (* service.filter(Filters=[...]) *)
| Limit (service : string)                           (* service.limit(limit) *)
| Refresh (service id : string)                      (* obj.refresh() *)
| ResDelete (service id : string)                    (* res.delete() *)
| Ec2Call (method : string) (args : kwargs)          (* the ec2_conn method, with its kwargs *)
| SetAttr (id attr : string) (v : option string)     (* res.name = ..., res.description = ... *)
| GetAllSubnets (subnet_id : string)                 (* vpc_conn.get_all_subnets(subnet_id) *)
| GetAllSecurityGroups (vpc : option string)         (* ec2_conn.get_all_security_groups(filters) *)
| VpcSubnets (vpc : string)                          (* vpc.subnets() *)
| RunInstances (args : RunArgs).                     (* ec2_conn.run_instances(...) *)

(** Calls that change something at the provider. *)
Definition is_mutating (e : Event) : bool :=
  match e with
  | ResDelete _ _ | Ec2Call _ _ | SetAttr _ _ _ | RunInstances _ => true
  | _ => false
  end.

Definition is_run_instances (e : Event) : bool :=
  match e with RunInstances _ => true | _ => false end.

Definition is_sleep (e : Event) : bool :=
  match e with Sleep _ => true | _ => false end.

Record World := {
  clock : Z;            (* seconds spent sleeping *)
  trace : list Event    (* calls issued, oldest first *)
}.

(** What the provider answers to one call. *)
Inductive Reply (A : Type) :=
| Replied (a : A)
| Failed.                (* the call raises EC2ResponseError *)
Arguments Replied {A} a.
Arguments Failed {A}.

(** ** The monad *)

Inductive Result (A : Type) :=
| Ok (a : A)
| Raise (e : Exception).
Arguments Ok {A} a.
Arguments Raise {A} e.

Definition M (A : Type) : Type := World -> Result A * World.

Definition ret {A} (a : A) : M A := fun w => (Ok a, w).

Definition raise {A} (e : Exception) : M A := fun w => (Raise e, w).

Definition bind {A B} (m : M A) (k : A -> M B) : M B :=
  fun w => match m w with
           | (Ok a, w') => k a w'
           | (Raise e, w') => (Raise e, w')
           end.

Notation "x <- c ;; k" := (bind c (fun x => k))
  (at level 100, c at next level, right associativity).
Notation "c ;;; k" := (bind c (fun _ => k))
  (at level 100, right associativity).

(** [try: m except EC2ResponseError: h] *)
Definition try_except_ec2 {A} (m h : M A) : M A :=
  fun w => match m w with
           | (Raise EC2ResponseError, w') => h w'
           | r => r
           end.

(** [for x in l: s = body(s, x)] *)
Fixpoint for_each {S A} (body : S -> A -> M S) (l : list A) (s : S) : M S :=
  match l with
  | [] => ret s
  | x :: l' => s' <- body s x ;; for_each body l' s'
  end.

(** The history after one more call. *)
Definition record (e : Event) (w : World) : World :=
  {| clock := clock w; trace := trace w ++ [e] |}.

(** The history after [secs] more seconds asleep. *)
Definition asleep (secs : Z) (w : World) : World :=
  {| clock := clock w + secs; trace := trace w ++ [Sleep secs] |}.

Definition emit (e : Event) : M unit := fun w => (Ok tt, record e w).

(** [time.sleep(secs)] *)
Definition sleep (secs : Z) : M unit := fun w => (Ok tt, asleep secs w).

(** One call to the provider: it answers from the history so far, the
    call is recorded, and a failure is raised as [EC2ResponseError].
    That is the one exception the adapter handles; a provider that fails
    in another way (a lost connection, say) is outside this model, so
    what is proved of a call holds for these two answers. *)
Definition call {A} (e : Event) (oracle : World -> Reply A) : M A :=
  fun w => match oracle w with
           | Replied a => (Ok a, record e w)
           | Failed => (Raise EC2ResponseError, record e w)
           end.

(** [x[0]] on a list *)
Definition item0 {A} (l : list A) : M A :=
  match l with
  | x :: _ => ret x
  | [] => raise IndexError
  end.

(** [x.attr] where [x] may be [None] *)
Definition attr_of {A} (x : option A) : M A :=
  match x with
  | Some a => ret a
  | None => raise (AttributeError NoneHasNoAttribute)
  end.

(** ** EC2ServiceFilter *)

(** Whether objects of the [cb_iface] class have a [refresh] attribute,
    and whether it is callable. *)
Inductive RefreshAttr := NoRefresh | RefreshNotCallable | RefreshCallable.

(** [hasattr(obj, 'refresh') and callable(obj.refresh)] *)
Definition can_refresh (r : RefreshAttr) : bool :=
  match r with RefreshCallable => true | _ => false end.

(** An adapter instance: the collection it is bound to, the wrapper class,
    and the provider behind it.  [Raw] is the type of the collection's
    objects; wrapping one in the [cb_iface] class keeps the object, so a
    wrapped object is modelled by the object itself and the class by its
    [iface_refresh] capability.  The oracles are the provider: what
    [service.filter], [service.limit], [res.delete], [obj.refresh] and a
    method of [ec2_conn] answer after a given history. *)
Record EC2ServiceFilter (Raw : Type) := {
  service : string;
  iface_refresh : RefreshAttr;
  on_filter : World -> string -> string -> Reply (list Raw);
  on_limit : World -> Reply (list Raw);
  on_delete : World -> Raw -> Reply unit;
  on_refresh : World -> Raw -> Reply unit;
  on_method : World -> string -> kwargs -> Reply (option Raw)
}.
Arguments service {Raw} _.
Arguments iface_refresh {Raw} _.
Arguments on_filter {Raw} _ _ _ _.
Arguments on_limit {Raw} _ _.
Arguments on_delete {Raw} _ _ _.
Arguments on_refresh {Raw} _ _ _.
Arguments on_method {Raw} _ _ _ _.

(** Modelled from the spec: [ClientPagedResultList] (in
    [cloudbridge.cloud.base.resources], not part of this development) is
    constructed from a materialized sequence and iterates in construction
    order; iterating it is modelled as iterating the sequence.  The
    container serves its objects in pages, whose size is a setting of
    the provider that this file does not have: the model is the
    container whose first page holds the whole sequence, and only the
    head of a list is sure to be served whatever the page size. *)
Definition ClientPagedResultList {A} (objs : list A) : list A := objs.

(** [timeout=15].  A timeout is a number, not necessarily whole: it is
    modelled as a rational. *)
Definition timeout_default : Q := 15.

(** How often the body of [while timeout > 0: ...; timeout = timeout - 1]
    runs: the least [n] with [timeout - n <= 0], which is [timeout]
    rounded up, or 0 when [timeout] is not positive. *)
Definition rounds (timeout : Q) : nat := Z.to_nat (Qceiling timeout).

Section Adapter.
Context {Raw : Type} `{Resource Raw} (self : EC2ServiceFilter Raw).

(** [get(val, filter_name, wrapper=True)] *)
Definition get (val filter_name : string) (wrapper : bool) : M (option Raw) :=
  try_except_ec2
    (objs <- call (Filter (service self) filter_name val)
                  (fun w => on_filter self w filter_name val) ;;
     let objs := take 1 objs in                       (* .limit(1) *)
     let obj := head objs in                          (* objs[0] if objs else None *)
     if wrapper then ret obj                          (* iface(provider, obj) if obj else None *)
     else ret obj)
    (ret None).

(** [list(limit=None, marker=None)] *)
Definition list_ : M (list Raw) :=
  objs <- try_except_ec2
            (call (Limit (service self)) (on_limit self))
            (ret []) ;;
  ret (ClientPagedResultList objs).

(** [find(val, filter_name)] *)
Definition find (val filter_name : string) : M (list Raw) :=
  objs <- try_except_ec2
            (call (Filter (service self) filter_name val)
                  (fun w => on_filter self w filter_name val))
            (ret []) ;;
  ret (ClientPagedResultList objs).

(** [create(method, **kwargs)] *)
Definition create (method : string) (args : kwargs) : M (option Raw) :=
  res <- call (Ec2Call method args) (fun w => on_method self w method args) ;;
  ret res.                                            (* iface(provider, res) if res else None *)

(** [delete(val, filter_name)] *)
Definition delete (val filter_name : string) : M bool :=
  res <- get val filter_name false ;;
  match res with
  | Some res =>
      try_except_ec2
        (call (ResDelete (service self) (id_of res))
              (fun w => on_delete self w res) ;;;
         ret true)
        (ret false)
  | None => ret true
  end.

(** The loop [while timeout > 0] of [wait_for_create]; [n] is the number
    of iterations left, [rounds timeout].  [obj.refresh()] is one read
    of the provider, outside any [try]: its failure leaves the wait as
    an exception. *)
Fixpoint wait_for_create_loop (val filter_name : string) (n : nat) : M Tristate :=
  match n with
  | O => ret PyFalse
  | S n' =>
      sleep 2 ;;;
      obj <- get val filter_name true ;;
      match obj with
      | Some obj =>
          if can_refresh (iface_refresh self) then
            call (Refresh (service self) (id_of obj))
                 (fun w => on_refresh self w obj) ;;;
            ret PyTrue
          else ret PyNothing
      | None => wait_for_create_loop val filter_name n'   (* timeout = timeout - 1 *)
      end
  end.

(** [wait_for_create(val, filter_name, timeout=15)] *)
Definition wait_for_create (val filter_name : string) (timeout : Q) : M Tristate :=
  wait_for_create_loop val filter_name (rounds timeout).

Fixpoint wait_for_delete_loop (val filter_name : string) (n : nat) : M bool :=
  match n with
  | O => ret false
  | S n' =>
      sleep 2 ;;;
      obj <- get val filter_name true ;;
      match obj with
      | None => ret true
      | Some _ => wait_for_delete_loop val filter_name n'
      end
  end.

(** [wait_for_delete(val, filter_name, timeout=15)] *)
Definition wait_for_delete (val filter_name : string) (timeout : Q) : M bool :=
  wait_for_delete_loop val filter_name (rounds timeout).

End Adapter.

(** ** The provider *)

(** The [iface] adapters of the services used at launch, and the calls
    that [AWSInstanceService] makes on the connections directly. *)
Record Provider := {
  volumes : EC2ServiceFilter Volume;             (* block_store.volumes.iface *)
  snapshots : EC2ServiceFilter Snapshot;         (* block_store.snapshots.iface *)
  security_groups : EC2ServiceFilter SecGroup;   (* security.security_groups.iface *)
  network : EC2ServiceFilter Vpc;                (* network.iface *)
  on_get_all_subnets : World -> string -> Reply (list Subnet);
  on_get_all_security_groups : World -> option string -> Reply (list SecGroup);
  on_run_instances : World -> RunArgs -> Reply (option Reservation)
}.

(** The [security_groups] argument of a launch: absent, a list of
    [SecurityGroup] objects, or a list of names. *)
Inductive SecurityGroups :=
| NoGroups
| GroupObjects (l : list SecGroup)
| GroupNames (l : list string).

(** [bool(security_groups)] *)
Definition truthy_groups (g : SecurityGroups) : bool :=
  match g with
  | NoGroups => false
  | GroupObjects l => match l with [] => false | _ => true end
  | GroupNames l => match l with [] => false | _ => true end
  end.

(** [x in l] for strings *)
Definition str_in (x : string) (l : list string) : bool :=
  existsb (String.eqb x) l.

(** [string.ascii_lowercase] *)
Definition ascii_lowercase : string := "abcdefghijklmnopqrstuvwxyz".

Definition str_of_char (c : Ascii.ascii) : string := String c EmptyString.

(** ['ephemeral%s' % ephemeral_counter] *)
Definition ephemeral_name_of (ephemeral_counter : nat) : string :=
  "ephemeral" +:+ pretty ephemeral_counter.

(** The variables of the loop in [_process_block_device_mappings]. *)
Record BdmLoop := {
  next_letter : list Ascii.ascii;       (* what the iterator has left *)
  ephemeral_counter : nat;
  bdm : BlockDeviceMapping
}.

Section Services.
Context (provider : Provider).

(** [AWSSecurityGroupService.create(name, description)] *)
Definition AWSSecurityGroupService_create (name description : string)
  : M (option SecGroup) :=
  res <- create (security_groups provider) "create_security_group"
           [("GroupName", PyStr name); ("Description", PyStr description)] ;;
  r <- attr_of res ;;                                           (* res.id *)
  ok <- wait_for_create (security_groups provider) (id_of r) "group-id"
          timeout_default ;;
  if negb (truthy_tri ok) then ret None
  else ret res.

(** [AWSVolumeService.create(name, size, zone, snapshot, iops, description)],
    with [zone] and [snapshot] given by id *)
Definition AWSVolumeService_create (name : string) (size : option Z)
    (zone : string) (snapshot : option string) (iops : option Z)
    (description : option string) : M (option Volume) :=
  let zone_id := zone in
  let snapshot_id := snapshot in
  let params := [("Size", of_opt_int size); ("AvailabilityZone", PyStr zone_id)] in
  let params := if truthy_int iops
                then params ++ [("Iops", of_opt_int iops)] else params in
  let params := match snapshot_id with
                | Some s => if truthy_str s
                            then params ++ [("SnapshotId", PyStr s)] else params
                | None => params
                end in
  res <- create (volumes provider) "create_volume" params ;;
  r <- attr_of res ;;                                           (* res.id *)
  ok <- wait_for_create (volumes provider) (id_of r) "volume-id"
          timeout_default ;;
  if negb (truthy_tri ok) then ret None
  else
    emit (SetAttr (id_of r) "name" (Some name)) ;;;
    (if truthy (vol_description r)
     then emit (SetAttr (id_of r) "description" description)
     else ret tt) ;;;
    ret res.

(** [AWSSnapshotService.create(name, volume, description)], with
    [volume] given by id *)
Definition AWSSnapshotService_create (name : string) (volume : string)
    (description : option string) : M (option Snapshot) :=
  let volume_id := volume in
  res <- create (snapshots provider) "create_snapshot"
           [("VolumeId", PyStr volume_id)] ;;
  r <- attr_of res ;;                                           (* res.id *)
  ok <- wait_for_create (snapshots provider) (id_of r) "snapshot-id"
          timeout_default ;;
  if negb (truthy_tri ok) then ret None
  else
    emit (SetAttr (id_of r) "name" (Some name)) ;;;
    (if truthy (snap_description r)
     then emit (SetAttr (id_of r) "description" description)
     else ret tt) ;;;
    ret res.

(** *** AWSInstanceService *)

(** The nested [_deduce_subnet_and_zone(vpc, zone_id)].  Its local
    [subnet_id] is bound only by an assignment: [None] below stands for
    the unbound name, and reading it raises [UnboundLocalError]. *)
Definition _deduce_subnet_and_zone (vpc : option Vpc) (zone_id : option string)
  : M (option string * option string) :=
  if truthy zone_id then
    v <- attr_of vpc ;;
    emit (VpcSubnets (id_of v)) ;;;
    let subnet_id :=
      fold_left (fun (bound : option string) (sn : Subnet) =>
                   if bool_decide (Some (availability_zone sn) = zone_id)
                   then Some (id_of sn) else bound)
                (subnets v) None in
    match subnet_id with
    | Some s => ret (Some s, zone_id)
    | None => raise (UnboundLocalError "subnet_id")
    end
  else
    v <- attr_of vpc ;;
    emit (VpcSubnets (id_of v)) ;;;
    sn <- item0 (subnets v) ;;
    ret (Some (id_of sn), Some (availability_zone sn)).

(** [_process_security_groups(security_groups, vpc_id)] *)
Definition _process_security_groups (groups : SecurityGroups)
    (vpc_id : option string) : M (list string) :=
  (* If a VPC was specified, need to map to the SGs in the VPC. *)
  let flters := if truthy vpc_id then vpc_id else None in
  let get_all_security_groups :=
    call (GetAllSecurityGroups flters)
         (fun w => on_get_all_security_groups provider w flters) in
  match groups with
  | GroupObjects ((_ :: _) as l) => ret (map id_of l)
  | GroupNames ((_ :: _) as names) =>
      sgs <- get_all_security_groups ;;
      ret (map id_of (List.filter (fun sg => str_in (sg_name sg) names) sgs))
  | GroupObjects [] | GroupNames [] => raise IndexError   (* security_groups[0] *)
  | NoGroups =>
      sgs <- get_all_security_groups ;;
      match sgs with
      | [] => ret []
      | _ :: _ => raise TypeError                         (* sg.name in None *)
      end
  end.

(** The body of [for sg_id in _sg_ids] in [_resolve_launch_options];
    the loop variables are [(sg_ids, subnet_id, zone_id)]. *)
Definition resolve_sg_step
    (st : list string * option string * option string) (sg_id : string)
  : M (list string * option string * option string) :=
  let '(sg_ids, subnet_id, zone_id) := st in
  sg <- get (security_groups provider) sg_id "group-id" true ;;
  sg <- attr_of sg ;;                               (* sg._security_group *)
  if truthy (sg_vpc_id sg) then
    sg_ids <- (if match sg_ids with [] => false | _ => true end
                  && negb (str_in sg_id sg_ids)
               then raise (ValueError MultipleMatches)
               else ret (sg_ids ++ [sg_id])) ;;
    vpc <- get (network provider) (str_value (sg_vpc_id sg)) "vpc-id" true ;;
    sz <- _deduce_subnet_and_zone vpc zone_id ;;
    ret (sg_ids, sz.1, sz.2)
  else ret st.

(** The body of [for vpc in self.provider.network.list()]; the loop
    variables are [(vpc_id, subnet_id, zone_id)]. *)
Definition resolve_default_step
    (st : option string * option string * option string) (vpc : Vpc)
  : M (option string * option string * option string) :=
  let '(vpc_id, subnet_id, zone_id) := st in
  if is_default vpc then
    sz <- _deduce_subnet_and_zone (Some vpc) zone_id ;;
    ret (Some (id_of vpc), sz.1, sz.2)
  else ret st.

(** [_resolve_launch_options(subnet_id, zone_id, security_groups)] *)
Definition _resolve_launch_options (subnet_id zone_id : option string)
    (groups : SecurityGroups)
  : M (option string * option string * list string) :=
  let vpc_id : option string := None in
  let sg_ids : list string := [] in
  vpc_id <- (if truthy subnet_id then
               let sid := str_value subnet_id in
               l <- call (GetAllSubnets sid)
                         (fun w => on_get_all_subnets provider w sid) ;;
               subnet <- item0 l ;;
               let vpc_id := Some (sn_vpc_id subnet) in
               if truthy zone_id
                  && negb (bool_decide (Some (availability_zone subnet) = zone_id))
               then raise (ValueError ZoneMismatch)
               else ret vpc_id
             else ret vpc_id) ;;
  st <- (if truthy_groups groups then
           _sg_ids <- _process_security_groups groups vpc_id ;;
           st <- (if negb (truthy subnet_id)
                  then for_each resolve_sg_step _sg_ids (sg_ids, subnet_id, zone_id)
                  else ret (_sg_ids, subnet_id, zone_id)) ;;
           if negb (truthy st.1.2)
           then raise (AttributeError MustBeInVPC)
           else ret st
         else ret (sg_ids, subnet_id, zone_id)) ;;
  let '(sg_ids, subnet_id, zone_id) := st in
  sz <- (if negb (truthy subnet_id) && negb (truthy_groups groups) then
           vpcs <- list_ (network provider) ;;
           st <- for_each resolve_default_step vpcs (vpc_id, subnet_id, zone_id) ;;
           if negb (truthy st.1.1)
           then raise (AttributeError NoDefaultVPC)
           else ret (st.1.2, st.2)
         else ret (subnet_id, zone_id)) ;;
  ret (sz.1, sz.2, sg_ids).

(** The source of a volume device: what it writes into [bd_type]. *)
Definition resolve_source (device : Device) (zone : option string)
    (bd_type : BlockDeviceType) : M BlockDeviceType :=
  match source device with
  | SrcSnapshot id => ret (set_snapshot_id id bd_type)
  | SrcVolume id => ret (set_volume_id id bd_type)
  | SrcImage _ => ret bd_type                            (* Not supported *)
  | SrcNone =>
      (* source is None, but destination is volume, therefore
         create a blank volume. *)
      if negb (truthy zone) then raise InvalidConfigurationException
      else
        new_vol <- AWSVolumeService_create EmptyString (size device)
                     (str_value zone) None None None ;;
        v <- attr_of new_vol ;;                          (* new_vol.id *)
        ret (set_volume_id (id_of v) bd_type)
  end.

(** The body of [for device in launch_config.block_devices].  The
    mapping holds a reference to [bd_type], so what is written to
    [bd_type] after [bdm[key] = bd_type] shows in the mapping; an
    exception in between abandons the mapping.  The entry is therefore
    put in once [bd_type] is complete. *)
Definition process_device (zone : option string) (st : BdmLoop)
    (device : Device) : M BdmLoop :=
  let bd_type := new_bd_type in
  if is_volume device then
    slot <- (if is_root device then ret ("/dev/sda1", next_letter st)
             else match next_letter st with               (* next(next_letter) *)
                  | c :: rest => ret ("sd" +:+ str_of_char c, rest)
                  | [] => raise StopIteration
                  end) ;;
    bd_type <- resolve_source device zone bd_type ;;
    let bd_type := set_delete_on_terminate (delete_on_terminate device) bd_type in
    let bd_type := if truthy_int (size device)
                   then set_size (default 0%Z (size device)) bd_type
                   else bd_type in
    ret {| next_letter := slot.2;
           ephemeral_counter := ephemeral_counter st;
           bdm := <[slot.1 := bd_type]> (bdm st) |}
  else  (* device is ephemeral *)
    let bd_type := set_ephemeral_name (ephemeral_name_of (ephemeral_counter st))
                     bd_type in
    ret st.

(** [_process_block_device_mappings(launch_config, zone)] *)
Definition _process_block_device_mappings (launch_config : LaunchConfig)
    (zone : option string) : M BlockDeviceMapping :=
  let st := {| (* Assign letters from f onwards *)
               next_letter := drop 6 (String.list_ascii_of_string ascii_lowercase);
               (* assign ephemeral devices from 0 onwards *)
               ephemeral_counter := 0;
               bdm := ∅ |} in
  st <- for_each (process_device zone) (block_devices launch_config) st ;;
  ret (bdm st).

(** [_get_net_id(launch_config)] *)
Definition _get_net_id (launch_config : LaunchConfig) : option string :=
  if (0 <? length (network_interfaces launch_config))%nat
  then head (network_interfaces launch_config)
  else None.

(** [AWSInstanceService.create], with the image, the instance type, the
    zone and the key pair given by id or name *)
Definition AWSInstanceService_create (name image instance_type : string)
    (zone key_pair : option string) (groups : SecurityGroups)
    (user_data : option string) (launch_config : option LaunchConfig)
  : M (option string) :=
  let image_id := image in
  let instance_size := instance_type in
  let zone_id := zone in
  let key_pair_name := key_pair in
  bs <- match launch_config with
        | Some lc =>
            bdm <- _process_block_device_mappings lc zone_id ;;
            ret (Some bdm, _get_net_id lc)
        | None => ret (None, None)
        end ;;
  let bdm := bs.1 in
  let subnet_id := bs.2 in
  r <- _resolve_launch_options subnet_id zone_id groups ;;
  let '(subnet_id, zone_id, security_group_ids) := r in
  let args := {| ra_image_id := image_id; ra_instance_type := instance_size;
                 ra_placement := zone_id; ra_key_name := key_pair_name;
                 ra_security_group_ids := security_group_ids;
                 ra_user_data := user_data; ra_block_device_map := bdm;
                 ra_subnet_id := subnet_id |} in
  reservation <- call (RunInstances args)
                      (fun w => on_run_instances provider w args) ;;
  match reservation with
  | Some reservation =>
      sleep 2 ;;;  (* The instance does not always get created in time *)
      instance <- item0 (instances reservation) ;;
      emit (SetAttr instance "name" (Some name)) ;;;
      ret (Some instance)
  | None => ret None
  end.
(** *** Deleting through the services *)

(** [AWSSecurityGroupService.delete(group_id)]; the result is a [bool]
    or [None]. *)
Definition AWSSecurityGroupService_delete (group_id : string) : M (option bool) :=
  res <- get (security_groups provider) group_id "group-id" true ;;
  match res with
  | Some res =>
      delete (security_groups provider) (id_of res) "group-id" ;;;
      gone <- wait_for_delete (security_groups provider) (id_of res) "group-id"
                timeout_default ;;
      ret (Some gone)
  | None => ret None
  end.

(** [AWSVolumeService.delete(name)]: [if res] on the list that [find]
    returns asks whether it is empty. *)
Definition AWSVolumeService_delete (name : string) : M (option bool) :=
  res <- find (volumes provider) name "tag:Name" ;;
  match res with
  | res :: _ =>                                                 (* res = res[0] *)
      delete (volumes provider) (id_of res) "volume-id" ;;;
      gone <- wait_for_delete (volumes provider) (id_of res) "volume-id"
                timeout_default ;;
      ret (Some gone)
  | [] => ret None
  end.

(** [AWSSnapshotService.delete(name)] *)
Definition AWSSnapshotService_delete (name : string) : M (option bool) :=
  res <- find (snapshots provider) name "tag:Name" ;;
  match res with
  | res :: _ =>                                                 (* res = res[0] *)
      delete (snapshots provider) (id_of res) "snapshot-id" ;;;
      gone <- wait_for_delete (snapshots provider) (id_of res) "snapshot-id"
                timeout_default ;;
      ret (Some gone)
  | [] => ret None
  end.
End Services.

(** ** A small account, for the examples *)

Module Demo.

Definition zone_a : string := "us-east-1a".
Definition zone_b : string := "us-east-1b".

Definition subnet_a1 : Subnet :=
  {| sn_id := "subnet-a1"; sn_vpc_id := "vpc-1"; availability_zone := zone_a |}.
Definition subnet_a2 : Subnet :=
  {| sn_id := "subnet-a2"; sn_vpc_id := "vpc-1"; availability_zone := zone_a |}.
Definition subnet_b1 : Subnet :=
  {| sn_id := "subnet-b1"; sn_vpc_id := "vpc-1"; availability_zone := zone_b |}.

(** The default network: two subnets in zone a, none in zone b. *)
Definition vpc1 : Vpc :=
  {| vpc_ident := "vpc-1"; is_default := true; subnets := [subnet_a1; subnet_a2] |}.

Definition sg1 : SecGroup :=
  {| sg_ident := "sg-1"; sg_name := "web"; sg_vpc_id := Some "vpc-1" |}.

Definition vol1 : Volume := {| vol_id := "vol-1"; vol_description := None |}.
Definition snap1 : Snapshot := {| snap_id := "snap-1"; snap_description := None |}.

(** A collection holding [objs]: a filter on the id finds an object
    once [lag] seconds have passed, deletes succeed unless [locked],
    and the creating method answers the first object. *)
Definition collection {Raw} `{Resource Raw} (name : string) (refresh : RefreshAttr)
    (objs : list Raw) (lag : Z) (locked : bool) : EC2ServiceFilter Raw :=
  {| service := name;
     iface_refresh := refresh;
     on_filter := fun w _ val =>
       if (clock w + 2 <=? lag)%Z then Replied []
       else Replied (List.filter (fun o => String.eqb (id_of o) val) objs);
     on_limit := fun _ => Replied objs;
     on_delete := fun _ _ => if locked then Failed else Replied tt;
     on_refresh := fun _ _ => Replied tt;
     on_method := fun _ _ _ => Replied (head objs) |}.

Definition account (volume_refresh : RefreshAttr) (vpcs : list Vpc) : Provider :=
  {| volumes := collection "volumes" volume_refresh [vol1] 0 false;
     snapshots := collection "snapshots" RefreshCallable [snap1] 0 false;
     security_groups := collection "security_groups" NoRefresh [sg1] 0 false;
     network := collection "vpcs" NoRefresh vpcs 0 false;
     on_get_all_subnets := fun _ sid =>
       Replied (List.filter (fun sn => String.eqb (sn_id sn) sid)
                            [subnet_a1; subnet_a2; subnet_b1]);
     on_get_all_security_groups := fun _ vpc =>
       Replied (List.filter (fun sg => match vpc with
                                       | Some v => bool_decide (sg_vpc_id sg = Some v)
                                       | None => true
                                       end) [sg1]);
     on_run_instances := fun _ _ => Replied (Some {| instances := ["i-1"] |}) |}.

Definition aws : Provider := account RefreshCallable [vpc1].

(** A volume collection in which nothing ever shows. *)
Definition empty_volumes : EC2ServiceFilter Volume :=
  collection "volumes" RefreshCallable [] 0 false.

(** A volume collection that refuses to delete. *)
Definition locked_volumes : EC2ServiceFilter Volume :=
  collection "volumes" RefreshCallable [vol1] 0 true.

Definition start : World := {| clock := 0; trace := [] |}.

(** The same account with a volume class that has no [refresh]. *)
Definition aws_plain : Provider := account NoRefresh [vpc1].

Definition snapshot_disk (root : bool) : Device :=
  {| is_volume := true; is_root := root; source := SrcSnapshot "snap-1";
     size := Some 8%Z; delete_on_terminate := true |}.

Definition blank_disk : Device :=
  {| is_volume := true; is_root := false; source := SrcNone;
     size := Some 10%Z; delete_on_terminate := false |}.

Definition ephemeral_disk : Device :=
  {| is_volume := false; is_root := false; source := SrcNone;
     size := None; delete_on_terminate := false |}.

Definition config (devices : list Device) (nics : list string) : LaunchConfig :=
  {| block_devices := devices; network_interfaces := nics |}.

(** What the mapping says of [snapshot_disk]. *)
Definition snapshot_entry : BlockDeviceType :=
  {| bd_snapshot_id := Some "snap-1"; bd_volume_id := None;
     bd_ephemeral_name := None; bd_delete_on_terminate := true;
     bd_size := Some 8%Z |}.

(** A root volume between two data volumes, and an ephemeral device. *)
Definition three_volumes : LaunchConfig :=
  config [snapshot_disk false; ephemeral_disk; snapshot_disk true;
          snapshot_disk false] [].

(** A data volume from a snapshot, then a blank one. *)
Definition with_blank : LaunchConfig :=
  config [snapshot_disk false; blank_disk; snapshot_disk true] [].

(** Twenty data volumes from a snapshot take the letters g to z; the
    blank volume after them finds none left. *)
Definition crowded : LaunchConfig :=
  config (replicate 20 (snapshot_disk false) ++ [blank_disk]) [].

(** A launch into zone b with a blank volume, on a subnet of zone a. *)
Definition conflicting_launch : M (option string) :=
  AWSInstanceService_create aws "web-1" "ami-1" "t2.micro" (Some zone_b) None
    NoGroups None (Some (config [blank_disk] ["subnet-a1"])).


(** Two volumes that answer to the same filter. *)
Definition vol2 : Volume := {| vol_id := "vol-2"; vol_description := Some "old" |}.
Definition twin_volumes : EC2ServiceFilter Volume :=
  {| service := "volumes";
     iface_refresh := RefreshCallable;
     on_filter := fun _ _ _ => Replied [vol1; vol2];
     on_limit := fun _ => Replied [vol1; vol2];
     on_delete := fun _ _ => Replied tt;
     on_refresh := fun _ _ => Replied tt;
     on_method := fun _ _ _ => Replied (Some vol2) |}.

(** A volume that shows once more than [lag] seconds have passed, and
    cannot be refreshed. *)
Definition stale_volumes (lag : Z) : EC2ServiceFilter Volume :=
  {| service := "volumes";
     iface_refresh := RefreshCallable;
     on_filter := fun w _ _ =>
       if (clock w <=? lag)%Z then Replied [] else Replied [vol1];
     on_limit := fun _ => Replied [vol1];
     on_delete := fun _ _ => Replied tt;
     on_refresh := fun _ _ => Failed;
     on_method := fun _ _ _ => Replied (Some vol1) |}.

(** A second group in the same network as [sg1], and one outside any. *)
Definition sg2 : SecGroup :=
  {| sg_ident := "sg-2"; sg_name := "db"; sg_vpc_id := Some "vpc-1" |}.
Definition sg_classic : SecGroup :=
  {| sg_ident := "sg-3"; sg_name := "classic"; sg_vpc_id := None |}.

(** The account with the groups [groups], the networks [vpcs] and the
    volume collection [vols]. *)
Definition account_with (groups : list SecGroup) (vpcs : list Vpc)
    (vols : EC2ServiceFilter Volume) : Provider :=
  {| volumes := vols;
     snapshots := collection "snapshots" RefreshCallable [snap1] 0 false;
     security_groups := collection "security_groups" NoRefresh groups 0 false;
     network := collection "vpcs" NoRefresh vpcs 0 false;
     on_get_all_subnets := on_get_all_subnets aws;
     on_get_all_security_groups := fun _ vpc =>
       Replied (List.filter (fun sg => match vpc with
                                       | Some v => bool_decide (sg_vpc_id sg = Some v)
                                       | None => true
                                       end) groups);
     on_run_instances := on_run_instances aws |}.

(** A network that is not the default one. *)
Definition vpc2 : Vpc :=
  {| vpc_ident := "vpc-2"; is_default := false; subnets := [subnet_b1] |}.

Definition root_entry_of (d : Device) : BlockDeviceType :=
  {| bd_snapshot_id := match source d with SrcSnapshot i => Some i | _ => None end;
     bd_volume_id := None; bd_ephemeral_name := None;
     bd_delete_on_terminate := delete_on_terminate d; bd_size := size d |}.

(** A second root volume, from another snapshot. *)
Definition other_root : Device :=
  {| is_volume := true; is_root := true; source := SrcSnapshot "snap-2";
     size := None; delete_on_terminate := false |}.

(** A collection that shows [objs] at once and always. *)
Definition steady {Raw} `{Resource Raw} (name : string) (objs : list Raw)
  : EC2ServiceFilter Raw :=
  {| service := name;
     iface_refresh := NoRefresh;
     on_filter := fun _ _ val =>
       Replied (List.filter (fun o => String.eqb (id_of o) val) objs);
     on_limit := fun _ => Replied objs;
     on_delete := fun _ _ => Replied tt;
     on_refresh := fun _ _ => Replied tt;
     on_method := fun _ _ _ => Replied (head objs) |}.

(** The account [aws] with steady groups and networks. *)
Definition steady_account (groups : list SecGroup) (vpcs : list Vpc) : Provider :=
  {| volumes := volumes aws;
     snapshots := snapshots aws;
     security_groups := steady "security_groups" groups;
     network := steady "vpcs" vpcs;
     on_get_all_subnets := on_get_all_subnets aws;
     on_get_all_security_groups := fun _ vpc =>
       Replied (List.filter (fun sg => match vpc with
                                       | Some v => bool_decide (sg_vpc_id sg = Some v)
                                       | None => true
                                       end) groups);
     on_run_instances := on_run_instances aws |}.

End Demo.

(** ** What is observed of a run *)

(** [issues P Q m]: every call that [m] adds to the history satisfies
    [P], nothing is removed from the history, and every exception that
    [m] raises satisfies [Q]. *)
Definition issues {A} (P : Event -> Prop) (Q : Exception -> Prop) (m : M A) : Prop :=
  forall w r w', m w = (r, w') ->
    (exists t, trace w' = trace w ++ t /\ Forall P t) /\
    (forall e, r = Raise e -> Q e).

(** A call that changes nothing at the provider. *)
Definition read_only (e : Event) : Prop := is_mutating e = false.

(** Any call but the launch itself. *)
Definition before_launch (e : Event) : Prop := is_run_instances e = false.

Definition never (e : Exception) : Prop := False.

(** [returns R m]: every value that [m] returns satisfies [R]. *)
Definition returns {A} (R : A -> Prop) (m : M A) : Prop :=
  forall w a w', m w = (Ok a, w') -> R a.

(** The errors of topology resolution in the specification's classes:
    the two conflicts of [ValueError], the security groups outside any
    network, and the missing default network. *)
Definition resolution_error (e : Exception) : bool :=
  match e with
  | ValueError ZoneMismatch | ValueError MultipleMatches
  | AttributeError MustBeInVPC | AttributeError NoDefaultVPC => true
  | _ => false
  end.

(** Not an error of topology resolution. *)
Definition not_from_resolution (e : Exception) : Prop := resolution_error e = false.

Definition any_error (e : Exception) : Prop := True.

(** The provider's own failure. *)
Definition from_provider (e : Exception) : Prop := e = EC2ResponseError.

(** What creating a volume can fail with: the provider's failure, or
    the read of an attribute of [None]. *)
Definition volume_error (e : Exception) : Prop :=
  e = EC2ResponseError \/ e = AttributeError NoneHasNoAttribute.

(** What building a block device mapping can fail with: the letters
    used up; without a zone, the Configuration error of a blank volume;
    with one, what creating that volume fails with. *)
Definition mapping_error (zone : option string) (e : Exception) : Prop :=
  e = StopIteration \/
  if truthy zone then volume_error e else e = InvalidConfigurationException.

(** The history once the block device mapping of a launch is built (or
    has failed): the launch builds it first. *)
Definition after_block_devices (provider : Provider)
    (launch_config : option LaunchConfig) (zone : option string) (w : World) : World :=
  match launch_config with
  | Some lc => (_process_block_device_mappings provider lc zone w).2
  | None => w
  end.

(** A volume that is not the root volume. *)
Definition nonroot_volume (d : Device) : bool := is_volume d && negb (is_root d).

(** A volume to be created blank: no source. *)
Definition blank_volume (d : Device) : bool :=
  is_volume d && match source d with SrcNone => true | _ => false end.

(** What a mapping entry says of the volume device it was made for. *)
Definition describes (d : Device) (bd : BlockDeviceType) : Prop :=
  bd_delete_on_terminate bd = delete_on_terminate d /\
  bd_size bd = (if truthy_int (size d) then size d else None) /\
  bd_ephemeral_name bd = None /\
  match source d with
  | SrcSnapshot id => bd_snapshot_id bd = Some id /\ bd_volume_id bd = None
  | SrcVolume id => bd_snapshot_id bd = None /\ bd_volume_id bd = Some id
  | SrcImage _ => bd_snapshot_id bd = None /\ bd_volume_id bd = None
  | SrcNone => bd_snapshot_id bd = None /\ is_Some (bd_volume_id bd)
  end.

(** The device names that a run of volume devices is given, from the
    letters that are left; [None] when the letters run out. *)
Fixpoint slots (vols : list Device) (letters : list Ascii.ascii) : option (list string) :=
  match vols with
  | [] => Some []
  | d :: vols' =>
      if is_root d then option_map (cons "/dev/sda1") (slots vols' letters)
      else match letters with
           | c :: rest => option_map (cons ("sd" +:+ str_of_char c)) (slots vols' rest)
           | [] => None
           end
  end.

(** [bdm[key] = bd] for a run of entries. *)
Definition insert_all (kbs : list (string * BlockDeviceType))
    (m : BlockDeviceMapping) : BlockDeviceMapping :=
  fold_left (fun m kb => <[kb.1 := kb.2]> m) kbs m.

(** Whether a subnet lies in the requested zone. *)
Definition in_zone (zone_id : option string) (sn : Subnet) : bool :=
  bool_decide (Some (availability_zone sn) = zone_id).

(** What [get] makes of the provider's answer. *)
Definition found {Raw} (r : Reply (list Raw)) : option Raw :=
  match r with Replied l => head l | Failed => None end.

(** [True] unless the provider refused. *)
Definition accepted {A} (r : Reply A) : bool :=
  match r with Replied _ => true | Failed => false end.

(** One round of a wait: two seconds asleep, then one look. *)
Definition poll {Raw} (self : EC2ServiceFilter Raw) (val filter_name : string)
    (w : World) : option Raw * World :=
  (found (on_filter self (asleep 2 w) filter_name val),
   record (Filter (service self) filter_name val) (asleep 2 w)).

(** The calls of one round of a wait, in their order. *)
Definition round {Raw} (self : EC2ServiceFilter Raw) (val filter_name : string)
  : list Event :=
  [Sleep 2; Filter (service self) filter_name val].

(** The seconds spent asleep between two histories. *)
Definition slept (w w' : World) : Z := (clock w' - clock w)%Z.

(** The calls issued between two histories. *)
Definition since (w w' : World) : list Event := drop (length (trace w)) (trace w').

(** The history after [k] rounds of a wait. *)
Fixpoint polled {Raw} (self : EC2ServiceFilter Raw) (val filter_name : string)
    (k : nat) (w : World) : World :=
  match k with
  | O => w
  | S k' => polled self val filter_name k' (poll self val filter_name w).2
  end.


(** * Reasoning about sessions *)

Lemma bind_Ok {A B} (m : M A) (k : A -> M B) w a w1 :
  m w = (Ok a, w1) -> bind m k w = k a w1.
Proof. unfold bind. by intros ->. Qed.

Lemma bind_Raise {A B} (m : M A) (k : A -> M B) w e w1 :
  m w = (Raise e, w1) -> bind m k w = (Raise e, w1).
Proof. unfold bind. by intros ->. Qed.

Lemma bind_inv {A B} (m : M A) (k : A -> M B) w r w' :
  bind m k w = (r, w') ->
  (exists a w1, m w = (Ok a, w1) /\ k a w1 = (r, w')) \/
  (exists e, m w = (Raise e, w') /\ r = Raise e).
Proof.
  unfold bind. destruct (m w) as [[a|e] w1]; intros Hk.
  - left. eauto.
  - right. inversion Hk; subst. eauto.
Qed.

Section Issues.
Context (P : Event -> Prop) (Q : Exception -> Prop).

Lemma issues_ret {A} (a : A) : issues P Q (ret a).
Proof.
  intros w r w' [= <- <-]. split; [|done].
  exists []. by rewrite app_nil_r.
Qed.

Lemma issues_raise {A} e : Q e -> issues P Q (raise (A:=A) e).
Proof.
  intros HQ w r w' [= <- <-]. split.
  - exists []. by rewrite app_nil_r.
  - by intros ? [= <-].
Qed.

Lemma issues_bind {A B} (m : M A) (k : A -> M B) :
  issues P Q m -> (forall a, issues P Q (k a)) -> issues P Q (bind m k).
Proof.
  intros Hm Hk w r w' Hb.
  destruct (bind_inv _ _ _ _ _ Hb) as [(a & w1 & H1 & H2)|(e & H1 & ->)].
  - destruct (Hm _ _ _ H1) as [(t1 & E1 & F1) _].
    destruct (Hk a _ _ _ H2) as [(t2 & E2 & F2) HQ].
    split; [|done]. exists (t1 ++ t2).
    rewrite E2, E1, app_assoc. split; [done|]. by apply Forall_app.
  - destruct (Hm _ _ _ H1) as [Ht HQ]. split; [done|].
    intros e' [= <-]. by apply HQ.
Qed.

Lemma issues_emit e : P e -> issues P Q (emit e).
Proof.
  intros HP w r w' [= <- <-]. split; [|done].
  exists [e]. split; [done|]. by constructor.
Qed.

Lemma issues_sleep secs : P (Sleep secs) -> issues P Q (sleep secs).
Proof.
  intros HP w r w' [= <- <-]. split; [|done].
  exists [Sleep secs]. split; [done|]. by constructor.
Qed.

Lemma issues_call {A} e (oracle : World -> Reply A) :
  P e -> Q EC2ResponseError -> issues P Q (call e oracle).
Proof.
  intros HP HQ w r w'. unfold call.
  destruct (oracle w); intros [= <- <-]; (split; [|by intros ? [= <-]]);
    exists [e]; (split; [done|]); by constructor.
Qed.

Lemma issues_try {A} (Q' : Exception -> Prop) (m h : M A) :
  issues P Q' m -> issues P Q h ->
  (forall e, Q' e -> e <> EC2ResponseError -> Q e) ->
  issues P Q (try_except_ec2 m h).
Proof.
  intros Hm Hh HQ w r w'. unfold try_except_ec2.
  destruct (m w) as [r1 w1] eqn:E1.
  destruct (Hm _ _ _ E1) as [(t1 & T1 & F1) HQ1].
  assert (Hkeep : (r1, w1) = (r, w') ->
                  (forall e, r1 = Raise e -> e <> EC2ResponseError) ->
                  (exists t, trace w' = trace w ++ t /\ Forall P t) /\
                  (forall e, r = Raise e -> Q e)).
  { intros [= <- <-] Hne. split; [eauto|].
    intros e ->. apply HQ; [by apply HQ1 | by apply Hne]. }
  destruct r1 as [a|e1]; [intros E; apply Hkeep; [done|congruence]|].
  destruct e1; try (intros E; apply Hkeep; [done|congruence]).
  intros Hh'. destruct (Hh _ _ _ Hh') as [(t2 & T2 & F2) HQ2].
  split; [|done]. exists (t1 ++ t2).
  rewrite T2, T1, app_assoc. split; [done|]. by apply Forall_app.
Qed.

Lemma issues_for_each {S A} (body : S -> A -> M S) (l : list A) :
  (forall s x, issues P Q (body s x)) -> forall s, issues P Q (for_each body l s).
Proof.
  intros Hb. induction l as [|x l IH]; intros s; simpl.
  - apply issues_ret.
  - apply issues_bind; [apply Hb | apply IH].
Qed.

Lemma issues_item0 {A} (l : list A) : Q IndexError -> issues P Q (item0 l).
Proof. destruct l; intros; [by apply issues_raise | apply issues_ret]. Qed.

Lemma issues_attr_of {A} (x : option A) :
  Q (AttributeError NoneHasNoAttribute) -> issues P Q (attr_of x).
Proof. destruct x; intros; [apply issues_ret | by apply issues_raise]. Qed.
End Issues.

Lemma issues_weaken {A} (P P' : Event -> Prop) (Q Q' : Exception -> Prop) (m : M A) :
  issues P Q m -> (forall e, P e -> P' e) -> (forall e, Q e -> Q' e) ->
  issues P' Q' m.
Proof.
  intros Hm HP HQ w r w' E. destruct (Hm _ _ _ E) as [(t & T & F) HR].
  split; [|by intros; apply HQ, HR].
  exists t. split; [done|]. eapply Forall_impl; eauto.
Qed.

(** ** The rounds of a wait *)

Lemma Qceiling_unique (x : Q) (z : Z) :
  (inject_Z (z - 1) < x)%Q -> (x <= inject_Z z)%Q -> Qceiling x = z.
Proof.
  intros Hlo Hhi.
  pose proof (Qle_ceiling x) as H1. pose proof (Qceiling_lt x) as H2.
  assert (inject_Z (z - 1) < inject_Z (Qceiling x))%Q as A
    by (eapply Qlt_le_trans; eauto).
  assert (inject_Z (Qceiling x - 1) < inject_Z z)%Q as B
    by (eapply Qlt_le_trans; eauto).
  rewrite <- Zlt_Qlt in A, B. lia.
Qed.

Lemma Qceiling_positive (x : Q) : (0 < x)%Q -> (0 < Qceiling x)%Z.
Proof.
  intros Hpos. rewrite Zlt_Qlt. eapply Qlt_le_trans; [exact Hpos|apply Qle_ceiling].
Qed.

(** [rounds] obeys the loop: a positive timeout runs the body once and
    goes on with [timeout - 1]; any other timeout ends the loop. *)
Lemma rounds_positive (timeout : Q) :
  (0 < timeout)%Q -> rounds timeout = S (rounds (timeout - 1)).
Proof.
  intros Hpos. unfold rounds.
  pose proof (Qle_ceiling timeout) as H1. pose proof (Qceiling_lt timeout) as H2.
  pose proof (Qceiling_positive _ Hpos).
  assert (Qceiling (timeout - 1) = Qceiling timeout - 1)%Z as ->; [|lia].
  apply Qceiling_unique; unfold Z.sub in *;
    rewrite !inject_Z_plus, !inject_Z_opp in *;
    change (inject_Z 1) with 1%Q in *; lra.
Qed.

Lemma rounds_nonpositive (timeout : Q) :
  (timeout <= 0)%Q -> rounds timeout = 0%nat.
Proof.
  intros Hle. unfold rounds.
  pose proof (Qceiling_resp_le _ _ Hle) as Hc.
  change (Qceiling 0) with 0%Z in Hc. lia.
Qed.

Lemma rounds_whole (timeout : Q) (n : Z) :
  (timeout == inject_Z n)%Q -> rounds timeout = Z.to_nat n.
Proof. intros E. unfold rounds. by rewrite (Qceiling_comp _ _ E), Qceiling_Z. Qed.

Lemma rounds_ceiling (timeout : Q) :
  (0 < timeout)%Q ->
  (timeout <= inject_Z (Z.of_nat (rounds timeout)))%Q /\
  (inject_Z (Z.of_nat (rounds timeout)) < timeout + 1)%Q.
Proof.
  intros Hpos. unfold rounds.
  pose proof (Qle_ceiling timeout) as H1. pose proof (Qceiling_lt timeout) as H2.
  pose proof (Qceiling_positive _ Hpos).
  rewrite Z2Nat.id by lia. split; [done|].
  unfold Z.sub in H2. rewrite inject_Z_plus, inject_Z_opp in H2.
  change (inject_Z 1) with 1%Q in H2. lra.
Qed.

(** ** The adapter *)

Section AdapterFacts.
Context {Raw : Type} `{Resource Raw} (self : EC2ServiceFilter Raw).

(** [get] in one equation: one filter call, and the provider's failure
    reads as absence. *)
Lemma get_eq val filter_name wrapper w :
  get self val filter_name wrapper w =
  (Ok (found (on_filter self w filter_name val)),
   record (Filter (service self) filter_name val) w).
Proof.
  unfold get, try_except_ec2, bind, call.
  destruct (on_filter self w filter_name val) as [l|]; simpl; [|done].
  destruct wrapper; unfold ret; do 2 f_equal; by destruct l.
Qed.

Lemma issues_get val filter_name wrapper :
  issues read_only never (get self val filter_name wrapper).
Proof.
  intros w r w'. rewrite get_eq. intros [= <- <-]. split; [|done].
  eexists. split; [done|]. by constructor.
Qed.

Lemma issues_list_ : issues read_only never (list_ self).
Proof.
  unfold list_. apply issues_bind; [|intros; apply issues_ret].
  eapply issues_try with (Q' := fun e => e = EC2ResponseError).
  - by apply issues_call.
  - apply issues_ret.
  - done.
Qed.

Lemma issues_wait_for_create_loop val filter_name n :
  issues read_only from_provider (wait_for_create_loop self val filter_name n).
Proof.
  induction n as [|n IH]; simpl; [apply issues_ret|].
  apply issues_bind; [by apply issues_sleep|intros _].
  apply issues_bind;
    [eapply issues_weaken; [apply issues_get|done|done]|intros [obj|]]; [|done].
  destruct (can_refresh _); [|apply issues_ret].
  apply issues_bind; [by apply issues_call | intros; apply issues_ret].
Qed.

Lemma issues_wait_for_create val filter_name timeout :
  issues read_only from_provider (wait_for_create self val filter_name timeout).
Proof. apply issues_wait_for_create_loop. Qed.

Lemma wait_for_create_loop_S val filter_name n w :
  wait_for_create_loop self val filter_name (S n) w =
  match (poll self val filter_name w).1 with
  | Some obj =>
      if can_refresh (iface_refresh self)
      then (if accepted (on_refresh self (poll self val filter_name w).2 obj)
            then Ok PyTrue else Raise EC2ResponseError,
            record (Refresh (service self) (id_of obj))
                   (poll self val filter_name w).2)
      else (Ok PyNothing, (poll self val filter_name w).2)
  | None => wait_for_create_loop self val filter_name n (poll self val filter_name w).2
  end.
Proof.
  simpl. unfold bind at 1. simpl. unfold bind at 1. rewrite get_eq. simpl.
  destruct (found _); [|done]. destruct (can_refresh _); [|done].
  unfold bind, call. simpl. by destruct (on_refresh _ _ _).
Qed.

Lemma wait_for_delete_loop_S val filter_name n w :
  wait_for_delete_loop self val filter_name (S n) w =
  match (poll self val filter_name w).1 with
  | None => (Ok true, (poll self val filter_name w).2)
  | Some _ => wait_for_delete_loop self val filter_name n (poll self val filter_name w).2
  end.
Proof.
  simpl. unfold bind at 1. simpl. unfold bind at 1. rewrite get_eq. simpl.
  by destruct (found _).
Qed.
(** Without a callable [refresh], the wait never answers [True]. *)
Lemma wait_for_create_loop_no_refresh val filter_name n w :
  can_refresh (iface_refresh self) = false ->
  (wait_for_create_loop self val filter_name n w).1 = Ok PyNothing \/
  (wait_for_create_loop self val filter_name n w).1 = Ok PyFalse.
Proof.
  intros Hno. revert w. induction n as [|n IH]; intros w; [by right|].
  rewrite wait_for_create_loop_S, Hno.
  destruct (poll self val filter_name w).1; [by left | apply IH].
Qed.
End AdapterFacts.

Lemma since_app w w' t : trace w' = trace w ++ t -> since w w' = t.
Proof. unfold since. intros ->. by rewrite drop_app_length. Qed.

Section Waiting.
Context {Raw : Type} `{Resource Raw} (self : EC2ServiceFilter Raw).

Lemma poll_clock val filter_name w :
  clock (poll self val filter_name w).2 = (clock w + 2)%Z.
Proof. done. Qed.

Lemma poll_trace val filter_name w :
  trace (poll self val filter_name w).2 =
  trace w ++ [Sleep 2; Filter (service self) filter_name val].
Proof. simpl. by rewrite <- app_assoc. Qed.

Lemma round_trace val filter_name w t :
  trace (poll self val filter_name w).2 ++ t =
  trace w ++ round self val filter_name ++ t.
Proof. by rewrite poll_trace, <- app_assoc. Qed.

(** A wait runs [k] of its [n] rounds, one after the other, each two
    seconds asleep and then the lookup; [wait_for_create] may end with
    the refresh of what it found.  It gives up only after all [n]. *)
Lemma wait_for_create_loop_rounds val filter_name n w :
  exists k tail,
    (k <= n)%nat /\
    clock (wait_for_create_loop self val filter_name n w).2
      = (clock w + 2 * Z.of_nat k)%Z /\
    trace (wait_for_create_loop self val filter_name n w).2
      = trace w ++ concat (replicate k (round self val filter_name)) ++ tail /\
    (tail = [] \/ exists obj, tail = [Refresh (service self) (id_of obj)]) /\
    ((wait_for_create_loop self val filter_name n w).1 = Ok PyFalse -> k = n).
Proof.
  revert w. induction n as [|n IH]; intros w.
  - exists 0%nat, []. simpl. rewrite app_nil_r. split_and!; try done; [lia|by left].
  - rewrite wait_for_create_loop_S.
    destruct (poll self val filter_name w).1 as [obj|] eqn:E.
    + exists 1%nat. destruct (can_refresh _).
      * exists [Refresh (service self) (id_of obj)].
        split_and!; [lia|done| |right; by exists obj|].
        -- simpl. by rewrite <- !app_assoc.
        -- simpl. by destruct (accepted _).
      * exists []. split_and!; [lia|done| |by left|done].
        simpl. by rewrite <- !app_assoc.
    + destruct (IH (poll self val filter_name w).2)
        as (k & tail & Hk & Hc & Ht & Htail & Hf).
      exists (S k), tail.
      rewrite Hc, Ht, poll_clock, round_trace.
      split_and!; [lia|lia|by cbn [replicate concat]; rewrite <- app_assoc|done|].
      intros E'. by rewrite (Hf E').
Qed.

Lemma wait_for_delete_loop_rounds val filter_name n w :
  exists k,
    (k <= n)%nat /\
    clock (wait_for_delete_loop self val filter_name n w).2
      = (clock w + 2 * Z.of_nat k)%Z /\
    trace (wait_for_delete_loop self val filter_name n w).2
      = trace w ++ concat (replicate k (round self val filter_name)) /\
    ((wait_for_delete_loop self val filter_name n w).1 = Ok false -> k = n).
Proof.
  revert w. induction n as [|n IH]; intros w.
  - exists 0%nat. simpl. rewrite app_nil_r. split_and!; try done; lia.
  - rewrite wait_for_delete_loop_S.
    destruct (poll self val filter_name w).1 as [obj|] eqn:E.
    + destruct (IH (poll self val filter_name w).2) as (k & Hk & Hc & Ht & Hf).
      exists (S k).
      rewrite Hc, Ht, poll_clock, round_trace.
      split_and!; [lia|lia|done|].
      intros E'. by rewrite (Hf E').
    + exists 1%nat. split_and!; [lia|done| |done].
      simpl. by rewrite <- !app_assoc.
Qed.
End Waiting.

(** C6. Deleting through the adapter: when [get] finds nothing, [delete]
    answers [True] and the only call issued is the lookup, so no delete
    reaches the provider; when [get] finds the resource, exactly one
    delete call follows the lookup, and the answer is [False] if the
    provider refuses that call and [True] otherwise. *)
Theorem C6_delete_idempotent {Raw} `{Resource Raw} (self : EC2ServiceFilter Raw)
    (val filter_name : string) (w : World) :
  ((get self val filter_name false w).1 = Ok None ->
     delete self val filter_name w = (Ok true, (get self val filter_name false w).2) /\
     since w (delete self val filter_name w).2 = [Filter (service self) filter_name val])
  /\
  (forall res, (get self val filter_name false w).1 = Ok (Some res) ->
     (delete self val filter_name w).1
       = Ok (accepted (on_delete self (get self val filter_name false w).2 res)) /\
     since w (delete self val filter_name w).2
       = [Filter (service self) filter_name val; ResDelete (service self) (id_of res)]).
Proof.
  unfold delete, bind. rewrite get_eq. simpl.
  split.
  - intros [= ->]. split; [done|]. by apply since_app.
  - intros res [= ->]. unfold try_except_ec2, call. simpl.
    destruct (on_delete self _ res); simpl;
      (split; [done|]); apply since_app; simpl; by rewrite <- app_assoc.
Qed.

Lemma C6_delete_idempotent_witness :
  (get Demo.locked_volumes "vol-9" "volume-id" false Demo.start).1 = Ok None /\
  (get Demo.locked_volumes "vol-1" "volume-id" false Demo.start).1 = Ok (Some Demo.vol1) /\
  delete Demo.locked_volumes "vol-9" "volume-id" Demo.start
    = (Ok true, (get Demo.locked_volumes "vol-9" "volume-id" false Demo.start).2) /\
  (delete Demo.locked_volumes "vol-1" "volume-id" Demo.start).1 = Ok false.
Proof.
  split; [reflexivity|]. split; [reflexivity|]. split.
  - exact (proj1 (proj1 (C6_delete_idempotent Demo.locked_volumes
                           "vol-9" "volume-id" Demo.start) eq_refl)).
  - exact (proj1 (proj2 (C6_delete_idempotent Demo.locked_volumes
                           "vol-1" "volume-id" Demo.start) Demo.vol1 eq_refl)).
Defined.

(** C8, as the code has it.  [timeout] counts rounds, not seconds.  A
    wait runs [k] rounds, at most [rounds timeout]: [timeout] rounded up,
    which is [timeout] itself when it is whole, and none when it is not
    positive.  Each round sleeps exactly 2 seconds and then looks the
    resource up once, and nothing else is issued but, at the end of
    [wait_for_create], one refresh of the object found.  So a wait sleeps
    [2 * k] seconds, at most [2 * rounds timeout], and exactly that long
    before it reports a timeout ([False]). *)
Theorem C8_wait_sleeps_twice_timeout {Raw} `{Resource Raw}
    (self : EC2ServiceFilter Raw) (val filter_name : string) (timeout : Q) (w : World) :
  (exists k tail,
     (k <= rounds timeout)%nat /\
     since w (wait_for_create self val filter_name timeout w).2
       = concat (replicate k (round self val filter_name)) ++ tail /\
     (tail = [] \/ exists obj, tail = [Refresh (service self) (id_of obj)]) /\
     slept w (wait_for_create self val filter_name timeout w).2 = (2 * Z.of_nat k)%Z /\
     ((wait_for_create self val filter_name timeout w).1 = Ok PyFalse ->
      k = rounds timeout))
  /\
  (exists k,
     (k <= rounds timeout)%nat /\
     since w (wait_for_delete self val filter_name timeout w).2
       = concat (replicate k (round self val filter_name)) /\
     slept w (wait_for_delete self val filter_name timeout w).2 = (2 * Z.of_nat k)%Z /\
     ((wait_for_delete self val filter_name timeout w).1 = Ok false ->
      k = rounds timeout))
  /\
  ((timeout <= 0)%Q -> rounds timeout = 0%nat) /\
  ((0 < timeout)%Q ->
   (timeout <= inject_Z (Z.of_nat (rounds timeout)))%Q /\
   (inject_Z (Z.of_nat (rounds timeout)) < timeout + 1)%Q) /\
  (forall n : Z, (timeout == inject_Z n)%Q -> rounds timeout = Z.to_nat n).
Proof.
  unfold wait_for_create, wait_for_delete, slept. split_and!.
  - destruct (wait_for_create_loop_rounds self val filter_name (rounds timeout) w)
      as (k & tail & Hk & Hc & Ht & Htail & Hf).
    exists k, tail. rewrite Hc, (since_app _ _ _ Ht). split_and!; [done..|lia|done].
  - destruct (wait_for_delete_loop_rounds self val filter_name (rounds timeout) w)
      as (k & Hk & Hc & Ht & Hf).
    exists k. rewrite Hc, (since_app _ _ _ Ht). split_and!; [done..|lia|done].
  - apply rounds_nonpositive.
  - apply rounds_ceiling.
  - apply rounds_whole.
Qed.

Lemma C8_wait_sleeps_twice_timeout_witness :
  (wait_for_create Demo.empty_volumes "vol-1" "volume-id" (5 # 2) Demo.start).1
    = Ok PyFalse /\
  rounds (5 # 2) = 3%nat /\
  exists k tail,
    k = rounds (5 # 2) /\
    since Demo.start
      (wait_for_create Demo.empty_volumes "vol-1" "volume-id" (5 # 2) Demo.start).2
      = concat (replicate k (round Demo.empty_volumes "vol-1" "volume-id")) ++ tail /\
    slept Demo.start
      (wait_for_create Demo.empty_volumes "vol-1" "volume-id" (5 # 2) Demo.start).2
      = (2 * Z.of_nat k)%Z.
Proof.
  split; [reflexivity|]. split; [reflexivity|].
  destruct (proj1 (C8_wait_sleeps_twice_timeout Demo.empty_volumes
                     "vol-1" "volume-id" (5 # 2) Demo.start))
    as (k & tail & _ & Ht & _ & Hs & Hf).
  exists k, tail. split; [exact (Hf eq_refl)|]. split; [exact Ht|exact Hs].
Defined.

(** C8 as stated fails: with the default timeout of 15, a wait for a
    volume that never shows reports the timeout after 30 seconds asleep,
    not after at most 15. *)
Lemma C8_counterexample :
  (wait_for_create Demo.empty_volumes "vol-1" "volume-id" timeout_default Demo.start).1
    = Ok PyFalse /\
  slept Demo.start
    (wait_for_create Demo.empty_volumes "vol-1" "volume-id" timeout_default Demo.start).2
    = 30%Z /\
  (timeout_default < 30)%Q.
Proof. repeat split. Qed.

(** ** Values returned *)

Lemma returns_ret {A} (R : A -> Prop) a : R a -> returns R (ret a).
Proof. by intros HR w a' w' [= <- _]. Qed.

Lemma returns_raise {A} (R : A -> Prop) e : returns R (raise e).
Proof. by intros w a w'. Qed.

Lemma returns_bind {A B} (R1 : A -> Prop) (R2 : B -> Prop) (m : M A) (k : A -> M B) :
  returns R1 m -> (forall a, R1 a -> returns R2 (k a)) -> returns R2 (bind m k).
Proof.
  intros Hm Hk w b w' Hb.
  destruct (bind_inv _ _ _ _ _ Hb) as [(a & w1 & H1 & H2)|(e & _ & [=])].
  eapply Hk; eauto.
Qed.

Lemma returns_any {A} (m : M A) : returns (fun _ => True) m.
Proof. done. Qed.

Lemma returns_wait_for_create {Raw} `{Resource Raw} (self : EC2ServiceFilter Raw)
    val filter_name timeout :
  can_refresh (iface_refresh self) = false ->
  returns (fun ok => truthy_tri ok = false)
          (wait_for_create self val filter_name timeout).
Proof.
  intros Hno w ok w' E. unfold wait_for_create in E.
  destruct (wait_for_create_loop_no_refresh self val filter_name
              (rounds timeout) w Hno) as [E'|E'];
    rewrite E in E'; simpl in E'; by injection E' as ->.
Qed.

(** ** The services that wait for what they created *)

Section ServiceFacts.
Context (provider : Provider).

(** When the wrapper class has no callable [refresh], the three
    creating services never hand back what they created. *)
Lemma AWSVolumeService_create_no_refresh name size zone snapshot iops description :
  can_refresh (iface_refresh (volumes provider)) = false ->
  returns (fun res => res = None)
          (AWSVolumeService_create provider name size zone snapshot iops description).
Proof.
  intros Hno. unfold AWSVolumeService_create.
  eapply returns_bind; [apply returns_any|intros res _].
  eapply returns_bind; [apply returns_any|intros r _].
  eapply returns_bind; [by apply returns_wait_for_create|intros ok ->].
  by apply returns_ret.
Qed.

Lemma AWSSnapshotService_create_no_refresh name volume description :
  can_refresh (iface_refresh (snapshots provider)) = false ->
  returns (fun res => res = None)
          (AWSSnapshotService_create provider name volume description).
Proof.
  intros Hno. unfold AWSSnapshotService_create.
  eapply returns_bind; [apply returns_any|intros res _].
  eapply returns_bind; [apply returns_any|intros r _].
  eapply returns_bind; [by apply returns_wait_for_create|intros ok ->].
  by apply returns_ret.
Qed.

Lemma AWSSecurityGroupService_create_no_refresh name description :
  can_refresh (iface_refresh (security_groups provider)) = false ->
  returns (fun res => res = None)
          (AWSSecurityGroupService_create provider name description).
Proof.
  intros Hno. unfold AWSSecurityGroupService_create.
  eapply returns_bind; [apply returns_any|intros res _].
  eapply returns_bind; [apply returns_any|intros r _].
  eapply returns_bind; [by apply returns_wait_for_create|intros ok ->].
  by apply returns_ret.
Qed.

Lemma errors_AWSVolumeService_create name size zone snapshot iops description :
  issues before_launch volume_error
         (AWSVolumeService_create provider name size zone snapshot iops description).
Proof.
  unfold AWSVolumeService_create, create.
  apply issues_bind; [|intros res].
  { apply issues_bind; [by apply issues_call; [|left] | intros; apply issues_ret]. }
  apply issues_bind; [by apply issues_attr_of; right|intros r].
  apply issues_bind; [|intros ok].
  { eapply issues_weaken; [apply issues_wait_for_create| |by intros ? ->; left].
    by intros []. }
  destruct (negb _); [apply issues_ret|].
  apply issues_bind; [by apply issues_emit|intros _].
  apply issues_bind; [|intros; apply issues_ret].
  destruct (truthy _); [by apply issues_emit | apply issues_ret].
Qed.

Lemma issues_AWSVolumeService_create name size zone snapshot iops description :
  issues before_launch not_from_resolution
         (AWSVolumeService_create provider name size zone snapshot iops description).
Proof.
  eapply issues_weaken; [apply errors_AWSVolumeService_create|done|].
  by intros e [-> | ->].
Qed.
End ServiceFacts.

Lemma AWSVolumeService_create_no_refresh_witness :
  can_refresh (iface_refresh (volumes Demo.aws_plain)) = false /\
  returns (fun res => res = None)
          (AWSVolumeService_create Demo.aws_plain "data" (Some 1%Z) Demo.zone_a
             None None None).
Proof.
  split; [reflexivity|].
  apply (AWSVolumeService_create_no_refresh Demo.aws_plain). reflexivity.
Defined.

(** C7, where the code departs from it.  The volume class here has no
    [refresh]; the provider creates the volume and shows it at the first
    look.  [wait_for_create] answers [None] (neither [True] nor [False]),
    and [AWSVolumeService.create], which tests [if not ...], returns
    [None] instead of the volume it created. *)
Theorem C7_unsupported_read_as_failure :
  (wait_for_create (volumes Demo.aws_plain) "vol-1" "volume-id" timeout_default
     Demo.start).1 = Ok PyNothing /\
  (AWSVolumeService_create Demo.aws_plain "data" (Some 1%Z) Demo.zone_a
     None None None Demo.start).1 = Ok None /\
  since Demo.start
    (AWSVolumeService_create Demo.aws_plain "data" (Some 1%Z) Demo.zone_a
       None None None Demo.start).2
  = [Ec2Call "create_volume"
       [("Size", PyInt 1); ("AvailabilityZone", PyStr Demo.zone_a)];
     Sleep 2; Filter "volumes" "volume-id" "vol-1"].
Proof. repeat split. Qed.

(** ** The launch: what each stage issues and raises *)

Section LaunchFacts.
Context (provider : Provider).

Lemma issues_get_any {Raw} `{Resource Raw} (self : EC2ServiceFilter Raw)
    val filter_name wrapper :
  issues read_only any_error (get self val filter_name wrapper).
Proof. eapply issues_weaken; [apply issues_get|done|done]. Qed.

Lemma issues_deduce vpc zone_id :
  issues read_only any_error (_deduce_subnet_and_zone vpc zone_id).
Proof.
  unfold _deduce_subnet_and_zone. destruct (truthy zone_id).
  - apply issues_bind; [by apply issues_attr_of|intros v].
    apply issues_bind; [by apply issues_emit|intros _].
    destruct (fold_left _ _ _); [apply issues_ret | by apply issues_raise].
  - apply issues_bind; [by apply issues_attr_of|intros v].
    apply issues_bind; [by apply issues_emit|intros _].
    apply issues_bind; [by apply issues_item0|intros sn]. apply issues_ret.
Qed.

Lemma issues_process_security_groups groups vpc_id :
  issues read_only any_error (_process_security_groups provider groups vpc_id).
Proof.
  unfold _process_security_groups.
  destruct groups as [|[|sg l]|[|nm l]];
    try (by apply issues_raise); try apply issues_ret.
  - apply issues_bind; [by apply issues_call|intros [|sg sgs]];
      [apply issues_ret | by apply issues_raise].
  - apply issues_bind; [by apply issues_call|intros sgs]. apply issues_ret.
Qed.

Lemma issues_resolve_sg_step st sg_id :
  issues read_only any_error (resolve_sg_step provider st sg_id).
Proof.
  destruct st as [[sg_ids subnet_id] zone_id]. unfold resolve_sg_step.
  apply issues_bind; [apply issues_get_any|intros sg].
  apply issues_bind; [by apply issues_attr_of|intros sg'].
  destruct (truthy _); [|apply issues_ret].
  apply issues_bind; [|intros ids].
  { destruct (_ && _); [by apply issues_raise | apply issues_ret]. }
  apply issues_bind; [apply issues_get_any|intros vpc].
  apply issues_bind; [apply issues_deduce|intros sz]. apply issues_ret.
Qed.

Lemma issues_resolve_default_step st vpc :
  issues read_only any_error (resolve_default_step st vpc).
Proof.
  destruct st as [[vpc_id subnet_id] zone_id]. unfold resolve_default_step.
  destruct (is_default vpc); [|apply issues_ret].
  apply issues_bind; [apply issues_deduce|intros sz]. apply issues_ret.
Qed.

(** Topology resolution only reads. *)
Lemma issues_resolve_launch_options subnet_id zone_id groups :
  issues read_only any_error
         (_resolve_launch_options provider subnet_id zone_id groups).
Proof.
  unfold _resolve_launch_options.
  apply issues_bind; [|intros vpc_id].
  { destruct (truthy subnet_id); [|apply issues_ret].
    apply issues_bind; [by apply issues_call|intros l].
    apply issues_bind; [by apply issues_item0|intros sn].
    destruct (_ && _); [by apply issues_raise | apply issues_ret]. }
  apply issues_bind; [|intros [[sg_ids sn] z]].
  { destruct (truthy_groups groups); [|apply issues_ret].
    apply issues_bind; [apply issues_process_security_groups|intros ids].
    apply issues_bind; [|intros st].
    { destruct (negb _); [|apply issues_ret].
      apply issues_for_each. apply issues_resolve_sg_step. }
    destruct (negb _); [by apply issues_raise | apply issues_ret]. }
  apply issues_bind; [|intros sz; apply issues_ret].
  destruct (_ && _); [|apply issues_ret].
  apply issues_bind; [|intros vpcs].
  { eapply issues_weaken; [apply issues_list_|done|done]. }
  apply issues_bind; [|intros st].
  { apply issues_for_each. apply issues_resolve_default_step. }
  destruct (negb _); [by apply issues_raise | apply issues_ret].
Qed.

Lemma errors_resolve_source device zone bd_type :
  issues before_launch (mapping_error zone)
         (resolve_source provider device zone bd_type).
Proof.
  unfold resolve_source, mapping_error.
  destruct (source device); try apply issues_ret.
  destruct (truthy zone); cbn [negb]; [|apply issues_raise; by right].
  apply issues_bind; [|intros v].
  { eapply issues_weaken; [apply errors_AWSVolumeService_create|done|].
    intros e He. by right. }
  apply issues_bind; [apply issues_attr_of; right; by right|intros v'].
  apply issues_ret.
Qed.

Lemma errors_process_device zone st device :
  issues before_launch (mapping_error zone) (process_device provider zone st device).
Proof.
  unfold process_device. destruct (is_volume device); [|apply issues_ret].
  apply issues_bind; [|intros slot].
  { destruct (is_root device); [apply issues_ret|].
    destruct (next_letter st); [apply issues_raise; by left | apply issues_ret]. }
  apply issues_bind; [apply errors_resolve_source|intros bd]. apply issues_ret.
Qed.

(** Building the block device mapping never launches, and fails only
    with a [mapping_error]. *)
Lemma errors_process_block_device_mappings launch_config zone :
  issues before_launch (mapping_error zone)
         (_process_block_device_mappings provider launch_config zone).
Proof.
  unfold _process_block_device_mappings.
  apply issues_bind; [|intros st; apply issues_ret].
  apply issues_for_each. apply errors_process_device.
Qed.

Lemma mapping_error_not_from_resolution zone e :
  mapping_error zone e -> not_from_resolution e.
Proof.
  unfold mapping_error, volume_error.
  destruct (truthy zone); intros [-> | He]; try done; [by destruct He as [-> | ->]|by subst].
Qed.

(** Building the block device mapping never launches, and never fails
    with an error of topology resolution. *)
Lemma issues_process_block_device_mappings launch_config zone :
  issues before_launch not_from_resolution
         (_process_block_device_mappings provider launch_config zone).
Proof.
  eapply issues_weaken; [apply errors_process_block_device_mappings|done|].
  apply mapping_error_not_from_resolution.
Qed.
End LaunchFacts.

Lemma read_only_before_launch e : read_only e -> before_launch e.
Proof. by destruct e. Qed.

(** C1, as the code has it.  A launch builds the block device mapping
    first, with the zone the caller gave, then resolves the topology, then
    calls [run_instances].  So when a launch fails with a Conflict or
    Configuration error of topology resolution, the history is that of the
    block device mapping followed by reads only: [run_instances] was not
    called, but the calls of the block device mapping (blank volumes
    among them) were already issued. *)
Theorem C1_launch_order (provider : Provider) (name image instance_type : string)
    (zone key_pair : option string) (groups : SecurityGroups)
    (user_data : option string) (launch_config : option LaunchConfig)
    (w w' : World) (e : Exception) :
  AWSInstanceService_create provider name image instance_type zone key_pair
    groups user_data launch_config w = (Raise e, w') ->
  resolution_error e = true ->
  exists t_bdm t_res,
    trace (after_block_devices provider launch_config zone w) = trace w ++ t_bdm /\
    trace w' = trace w ++ t_bdm ++ t_res /\
    Forall before_launch t_bdm /\
    Forall read_only t_res /\
    Forall before_launch (since w w').
Proof.
  intros Hrun He. unfold AWSInstanceService_create in Hrun.
  apply bind_inv in Hrun as [(bs & w1 & Hbdm & Hrest)|(e' & Hbdm & [= <-])].
  - assert (Hw1 : w1 = after_block_devices provider launch_config zone w /\
                  exists t_bdm, trace w1 = trace w ++ t_bdm /\ Forall before_launch t_bdm).
    { destruct launch_config as [lc|]; simpl.
      - apply bind_inv in Hbdm as [(m & w2 & Hm & [= <- <-])|(? & _ & [=])].
        rewrite Hm. split; [done|].
        by destruct (issues_process_block_device_mappings provider lc zone _ _ _ Hm).
      - injection Hbdm as <- <-. split; [done|]. exists []. by rewrite app_nil_r. }
    destruct Hw1 as [<- (t_bdm & Tb & Fb)].
    apply bind_inv in Hrest as [(r & w2 & Hres & Hlaunch)|(e' & Hres & [= <-])].
    + exfalso. destruct r as [[subnet_id zone_id] sg_ids].
      match type of Hlaunch with
      | ?m _ = _ => assert (Hi : issues (fun _ => True) not_from_resolution m)
      end.
      { apply issues_bind; [by apply issues_call|intros [res|]]; [|apply issues_ret].
        apply issues_bind; [by apply issues_sleep|intros _].
        apply issues_bind; [by apply issues_item0|intros i].
        apply issues_bind; [by apply issues_emit|intros _]. apply issues_ret. }
      destruct (Hi _ _ _ Hlaunch) as [_ Hq]. specialize (Hq e eq_refl).
      unfold not_from_resolution in Hq. congruence.
    + destruct (issues_resolve_launch_options provider _ _ _ _ _ _ Hres)
        as [(t_res & Tr & Fr) _].
      exists t_bdm, t_res. rewrite Tr, Tb, <- app_assoc.
      split_and!; try done.
      rewrite (since_app w w' (t_bdm ++ t_res)).
      * apply Forall_app. split; [done|].
        eapply Forall_impl; [done|]. apply read_only_before_launch.
      * by rewrite Tr, Tb, <- app_assoc.
  - exfalso. destruct launch_config as [lc|]; [|done].
    apply bind_inv in Hbdm as [(m & w2 & Hm & [=])|(e' & Hm & [= <-])].
    destruct (issues_process_block_device_mappings provider lc zone _ _ _ Hm) as [_ Hq].
    specialize (Hq e eq_refl). unfold not_from_resolution in Hq. congruence.
Qed.

Lemma C1_launch_order_witness :
  resolution_error (ValueError ZoneMismatch) = true /\
  exists t_bdm t_res,
    trace (after_block_devices Demo.aws
             (Some (Demo.config [Demo.blank_disk] ["subnet-a1"]))
             (Some Demo.zone_b) Demo.start) = trace Demo.start ++ t_bdm /\
    trace (Demo.conflicting_launch Demo.start).2 = trace Demo.start ++ t_bdm ++ t_res /\
    Forall before_launch t_bdm /\
    Forall read_only t_res /\
    Forall before_launch (since Demo.start (Demo.conflicting_launch Demo.start).2).
Proof.
  split; [reflexivity|].
  apply (C1_launch_order Demo.aws "web-1" "ami-1" "t2.micro" (Some Demo.zone_b) None
           NoGroups None (Some (Demo.config [Demo.blank_disk] ["subnet-a1"]))
           Demo.start (Demo.conflicting_launch Demo.start).2
           (ValueError ZoneMismatch)); reflexivity.
Defined.

(** C1 as stated fails: the launch below ends in the Conflict error of a
    zone that does not match the subnet, raised by topology resolution,
    after [create_volume] was called for the blank volume. *)
Lemma C1_counterexample :
  (Demo.conflicting_launch Demo.start).1 = Raise (ValueError ZoneMismatch) /\
  classify (ValueError ZoneMismatch) = Some Conflict /\
  List.filter is_mutating (trace (Demo.conflicting_launch Demo.start).2)
  = [Ec2Call "create_volume"
       [("Size", PyInt 10); ("AvailabilityZone", PyStr Demo.zone_b)];
     SetAttr "vol-1" "name" (Some EmptyString)].
Proof. repeat split. Qed.

(** ** Topology resolution *)

Lemma for_each_app {S A} (body : S -> A -> M S) (l1 l2 : list A) (s : S) (w : World) :
  for_each body (l1 ++ l2) s w =
  bind (for_each body l1 s) (for_each body l2) w.
Proof.
  revert s w. induction l1 as [|x l1 IH]; intros s w; simpl; [done|].
  unfold bind at 1 2 3. destruct (body s x w) as [[s'|e] w1]; [|done].
  by rewrite IH.
Qed.

(** The loop of [_deduce_subnet_and_zone] leaves the last subnet of the
    zone in [subnet_id]. *)
Lemma deduce_loop_last zone_id (l : list Subnet) (bound : option string) :
  fold_left (fun (bound : option string) (sn : Subnet) =>
               if bool_decide (Some (availability_zone sn) = zone_id)
               then Some (id_of sn) else bound) l bound
  = match last (List.filter (in_zone zone_id) l) with
    | Some sn => Some (id_of sn)
    | None => bound
    end.
Proof.
  revert bound. induction l as [|sn l IH]; intros bound; simpl; [done|].
  rewrite IH. unfold in_zone at 2.
  destruct (bool_decide _); [|done].
  rewrite last_cons. by destruct (last _).
Qed.

Lemma filter_in_zone_nil zone (l : list Subnet) :
  Forall (fun sn => availability_zone sn <> zone) l ->
  List.filter (in_zone (Some zone)) l = [].
Proof.
  induction 1 as [|sn l Hsn _ IH]; simpl; [done|].
  unfold in_zone at 1. rewrite bool_decide_eq_false_2; [done|congruence].
Qed.

(** C4, as the code has it.  With a zone requested, the loop over the
    network's subnets has no [break]: the subnet chosen is the last one of
    that zone in the provider's order, and the zone stays the requested
    one, which is the chosen subnet's.  With no zone requested, the subnet
    chosen is the first of the network and its zone becomes the zone. *)
Theorem C4_deduce_subnet_and_zone (vpc : Vpc) (zone_id : option string) (w : World) :
  (forall sn,
     truthy zone_id = true ->
     last (List.filter (in_zone zone_id) (subnets vpc)) = Some sn ->
     _deduce_subnet_and_zone (Some vpc) zone_id w
       = (Ok (Some (id_of sn), zone_id), record (VpcSubnets (id_of vpc)) w) /\
     Some (availability_zone sn) = zone_id)
  /\
  (forall sn rest,
     truthy zone_id = false ->
     subnets vpc = sn :: rest ->
     _deduce_subnet_and_zone (Some vpc) zone_id w
       = (Ok (Some (id_of sn), Some (availability_zone sn)),
          record (VpcSubnets (id_of vpc)) w)).
Proof.
  unfold _deduce_subnet_and_zone. split.
  - intros sn -> Hlast. unfold bind, attr_of, ret, emit. simpl.
    rewrite deduce_loop_last, Hlast. split; [done|].
    apply last_Some_elem_of, list_elem_of_In, filter_In in Hlast as [_ Hz].
    unfold in_zone in Hz. by apply bool_decide_eq_true in Hz.
  - intros sn rest -> Hs. unfold bind, attr_of, ret, emit. simpl.
    by rewrite Hs.
Qed.

Lemma C4_deduce_subnet_and_zone_witness :
  (_deduce_subnet_and_zone (Some Demo.vpc1) (Some Demo.zone_a) Demo.start).1
    = Ok (Some "subnet-a2", Some Demo.zone_a) /\
  (_deduce_subnet_and_zone (Some Demo.vpc1) None Demo.start).1
    = Ok (Some "subnet-a1", Some Demo.zone_a).
Proof.
  split.
  - exact (f_equal fst (proj1 (proj1 (C4_deduce_subnet_and_zone Demo.vpc1
             (Some Demo.zone_a) Demo.start) Demo.subnet_a2 eq_refl eq_refl))).
  - exact (f_equal fst (proj2 (C4_deduce_subnet_and_zone Demo.vpc1 None Demo.start)
             Demo.subnet_a1 [Demo.subnet_a2] eq_refl eq_refl)).
Defined.

(** C4 as stated fails: the network has two subnets in the requested
    zone; the first in the provider's order is [subnet-a1], the one chosen
    is [subnet-a2]. *)
Lemma C4_counterexample :
  head (List.filter (in_zone (Some Demo.zone_a)) (subnets Demo.vpc1))
    = Some Demo.subnet_a1 /\
  (_deduce_subnet_and_zone (Some Demo.vpc1) (Some Demo.zone_a) Demo.start).1
    = Ok (Some "subnet-a2", Some Demo.zone_a).
Proof. split; reflexivity. Qed.

(** C2, as the code has it.  When a subnet is supplied, it exists, and no
    zone is supplied, resolution succeeds with the supplied subnet, and
    the zone is returned as it came: unset.  The subnet's zone is only
    compared with a supplied zone, never adopted. *)
Theorem C2_subnet_without_zone (provider : Provider) (sid : string)
    (zone_id : option string) (groups : SecurityGroups) (w : World)
    (sn : Subnet) (rest : list Subnet) :
  truthy (Some sid) = true ->
  truthy zone_id = false ->
  on_get_all_subnets provider w sid = Replied (sn :: rest) ->
  (forall w' vpc, accepted (on_get_all_security_groups provider w' vpc) = true) ->
  exists sg_ids,
    (_resolve_launch_options provider (Some sid) zone_id groups w).1
      = Ok (Some sid, zone_id, sg_ids).
Proof.
  intros Hsid Hzone Hsn Hsgs. unfold _resolve_launch_options.
  rewrite Hsid, Hzone. simpl negb. simpl andb.
  unfold bind at 1. unfold bind at 1. unfold bind at 1. unfold call at 1.
  simpl str_value. rewrite Hsn. simpl item0. unfold ret at 1. unfold ret at 1.
  unfold bind at 1.
  destruct (truthy_groups groups) eqn:Hg.
  - unfold bind at 1. unfold bind at 1.
    assert (Hp : exists ids w1,
               _process_security_groups provider groups (Some (sn_vpc_id sn))
                 (record (GetAllSubnets sid) w) = (Ok ids, w1)).
    { unfold _process_security_groups.
      destruct groups as [|[|g l]|[|nm l]]; try done; [by eexists _, _|].
      unfold bind, call.
      specialize (Hsgs (record (GetAllSubnets sid) w)
                    (if truthy (Some (sn_vpc_id sn)) then Some (sn_vpc_id sn) else None)).
      destruct (on_get_all_security_groups _ _ _); [|done]. by eexists _, _. }
    destruct Hp as (ids & w1 & ->). unfold ret at 1. simpl.
    simpl in Hsid. rewrite Hsid. simpl. rewrite Hsid. simpl.
    by exists ids.
  - unfold ret at 1. simpl. simpl in Hsid. rewrite Hsid. simpl.
    by exists [].
Qed.

Lemma C2_subnet_without_zone_witness :
  truthy (Some "subnet-a1") = true /\
  on_get_all_subnets Demo.aws Demo.start "subnet-a1" = Replied [Demo.subnet_a1] /\
  exists sg_ids,
    (_resolve_launch_options Demo.aws (Some "subnet-a1") None (GroupNames ["web"])
       Demo.start).1 = Ok (Some "subnet-a1", None, sg_ids).
Proof.
  split; [reflexivity|]. split; [reflexivity|].
  apply (C2_subnet_without_zone Demo.aws "subnet-a1" None (GroupNames ["web"])
           Demo.start Demo.subnet_a1 []); reflexivity.
Defined.

(** C2 as stated fails: the subnet supplied lies in zone [us-east-1a], no
    zone is supplied, and the zone resolved is [None]. *)
Lemma C2_counterexample :
  on_get_all_subnets Demo.aws Demo.start "subnet-a1" = Replied [Demo.subnet_a1] /\
  availability_zone Demo.subnet_a1 = "us-east-1a" /\
  (_resolve_launch_options Demo.aws (Some "subnet-a1") None NoGroups Demo.start).1
    = Ok (Some "subnet-a1", None, []).
Proof. repeat split. Qed.

(** A supplied zone that is not the supplied subnet's zone is a Conflict,
    raised after the one read of the subnet. *)
Theorem zone_mismatch_conflict (provider : Provider) (sid zone : string)
    (groups : SecurityGroups) (w : World) (sn : Subnet) (rest : list Subnet) :
  truthy (Some sid) = true ->
  truthy (Some zone) = true ->
  on_get_all_subnets provider w sid = Replied (sn :: rest) ->
  availability_zone sn <> zone ->
  _resolve_launch_options provider (Some sid) (Some zone) groups w
    = (Raise (ValueError ZoneMismatch), record (GetAllSubnets sid) w) /\
  classify (ValueError ZoneMismatch) = Some Conflict.
Proof.
  intros Hsid Hz Hsn Hne. split; [|done].
  unfold _resolve_launch_options. rewrite Hsid, Hz.
  apply bind_Raise.
  erewrite bind_Ok by (unfold call; simpl str_value; rewrite Hsn; reflexivity).
  erewrite bind_Ok by reflexivity.
  rewrite bool_decide_eq_false_2 by congruence. done.
Qed.

Lemma zone_mismatch_conflict_witness :
  _resolve_launch_options Demo.aws (Some "subnet-a1") (Some Demo.zone_b) NoGroups
    Demo.start
    = (Raise (ValueError ZoneMismatch), record (GetAllSubnets "subnet-a1") Demo.start) /\
  classify (ValueError ZoneMismatch) = Some Conflict.
Proof.
  apply (zone_mismatch_conflict Demo.aws "subnet-a1" Demo.zone_b NoGroups Demo.start
           Demo.subnet_a1 []); try reflexivity.
  discriminate.
Defined.

Lemma for_each_not_default st (pre : list Vpc) w :
  Forall (fun v => is_default v = false) pre ->
  for_each resolve_default_step pre st w = (Ok st, w).
Proof.
  induction 1 as [|v pre Hv _ IH]; simpl; [done|].
  unfold bind, resolve_default_step. destruct st as [[a b] c]. by rewrite Hv.
Qed.

(** Asked for a zone in which the network has no subnet,
    [_deduce_subnet_and_zone] reads its unbound [subnet_id]. *)
Lemma deduce_unbound (vpc : Vpc) (zone : string) (w : World) :
  truthy (Some zone) = true ->
  Forall (fun sn => availability_zone sn <> zone) (subnets vpc) ->
  _deduce_subnet_and_zone (Some vpc) (Some zone) w
    = (Raise (UnboundLocalError "subnet_id"), record (VpcSubnets (id_of vpc)) w).
Proof.
  intros Hz Hnone. unfold _deduce_subnet_and_zone. rewrite Hz.
  unfold bind, attr_of, ret, emit. simpl.
  by rewrite deduce_loop_last, filter_in_zone_nil.
Qed.

(** C10.  A zone is supplied, no subnet and no security groups; the first
    default network in the provider's list has no subnet in that zone.
    Resolution then ends in [UnboundLocalError] for [subnet_id], which is
    neither a result nor a Conflict or Configuration error. *)
Theorem C10_unbound_subnet_id (provider : Provider) (subnet_id : option string)
    (zone : string) (groups : SecurityGroups) (w : World)
    (pre : list Vpc) (vpc : Vpc) (post : list Vpc) :
  truthy subnet_id = false ->
  truthy (Some zone) = true ->
  truthy_groups groups = false ->
  on_limit (network provider) w = Replied (pre ++ vpc :: post) ->
  Forall (fun v => is_default v = false) pre ->
  is_default vpc = true ->
  Forall (fun sn => availability_zone sn <> zone) (subnets vpc) ->
  (_resolve_launch_options provider subnet_id (Some zone) groups w).1
    = Raise (UnboundLocalError "subnet_id") /\
  classify (UnboundLocalError "subnet_id") = None.
Proof.
  intros Hsn Hz Hg Hlist Hpre Hdef Hnone. split; [|done].
  unfold _resolve_launch_options. rewrite Hsn, Hg.
  unfold bind at 1. unfold ret at 1. unfold bind at 1. unfold ret at 1.
  rewrite Hsn. simpl negb. simpl andb.
  unfold bind at 1. unfold bind at 1.
  unfold list_, try_except_ec2, bind at 1, call. rewrite Hlist.
  unfold ret at 1. unfold ClientPagedResultList, bind at 1.
  rewrite for_each_app. unfold bind at 1.
  rewrite for_each_not_default by done. simpl for_each.
  unfold bind at 1. unfold resolve_default_step at 1. rewrite Hdef.
  unfold bind at 1. by rewrite deduce_unbound.
Qed.

Lemma C10_unbound_subnet_id_witness :
  on_limit (network Demo.aws) Demo.start = Replied ([] ++ Demo.vpc1 :: []) /\
  (_resolve_launch_options Demo.aws None (Some Demo.zone_b) NoGroups Demo.start).1
    = Raise (UnboundLocalError "subnet_id") /\
  classify (UnboundLocalError "subnet_id") = None.
Proof.
  split; [reflexivity|].
  apply (C10_unbound_subnet_id Demo.aws None Demo.zone_b NoGroups Demo.start
           [] Demo.vpc1 []); try reflexivity.
  - constructor.
  - repeat constructor; discriminate.
Defined.

(** The same through a security group: the first group supplied lies in a
    network that has no subnet in the zone. *)
Lemma unbound_subnet_id_via_security_group (provider : Provider)
    (subnet_id : option string) (zone : string) (sg : SecGroup) (l : list SecGroup)
    (w : World) (sg' : SecGroup) (vpc : Vpc) :
  truthy subnet_id = false ->
  truthy (Some zone) = true ->
  (get (security_groups provider) (id_of sg) "group-id" true w).1 = Ok (Some sg') ->
  truthy (sg_vpc_id sg') = true ->
  (get (network provider) (str_value (sg_vpc_id sg')) "vpc-id" true
       (get (security_groups provider) (id_of sg) "group-id" true w).2).1
    = Ok (Some vpc) ->
  Forall (fun sn => availability_zone sn <> zone) (subnets vpc) ->
  (_resolve_launch_options provider subnet_id (Some zone) (GroupObjects (sg :: l)) w).1
    = Raise (UnboundLocalError "subnet_id").
Proof.
  intros Hsn Hz Hsg Hvpc Hnet Hnone.
  rewrite get_eq in Hnet. rewrite get_eq in Hsg, Hnet.
  simpl in Hsg, Hnet. injection Hsg as Hsg. injection Hnet as Hnet.
  assert (Hstep : exists w',
            resolve_sg_step provider ([], subnet_id, Some zone) (id_of sg) w
            = (Raise (UnboundLocalError "subnet_id"), w')).
  { unfold resolve_sg_step.
    erewrite bind_Ok by (rewrite get_eq, Hsg; reflexivity).
    erewrite bind_Ok by reflexivity. rewrite Hvpc.
    erewrite bind_Ok by reflexivity.
    erewrite bind_Ok by (rewrite get_eq, Hnet; reflexivity).
    erewrite bind_Raise by (by apply deduce_unbound). by eexists. }
  destruct Hstep as [w' Hstep].
  unfold _resolve_launch_options. rewrite Hsn. simpl truthy_groups. cbv iota.
  erewrite bind_Ok by reflexivity.
  erewrite bind_Raise; [reflexivity|].
  erewrite bind_Ok by reflexivity.
  erewrite bind_Raise; [reflexivity|].
  simpl. erewrite bind_Raise; [reflexivity|]. exact Hstep.
Qed.

Lemma unbound_subnet_id_via_security_group_witness :
  (_resolve_launch_options Demo.aws None (Some Demo.zone_b) (GroupObjects [Demo.sg1])
     Demo.start).1 = Raise (UnboundLocalError "subnet_id").
Proof.
  apply (unbound_subnet_id_via_security_group Demo.aws None Demo.zone_b Demo.sg1 []
           Demo.start Demo.sg1 Demo.vpc1); try reflexivity.
  repeat constructor; discriminate.
Defined.

(** ** The block device mapping *)

Section BlockDevices.
Context (provider : Provider).

(** An ephemeral device changes nothing: its [bd_type] is not stored
    and the counter stays. *)
Lemma process_device_ephemeral zone st d w :
  is_volume d = false -> process_device provider zone st d w = (Ok st, w).
Proof. unfold process_device. by intros ->. Qed.

Lemma returns_resolve_source d zone :
  returns (fun bd => bd_ephemeral_name bd = None /\
                     bd_delete_on_terminate bd = false /\ bd_size bd = None /\
                     match source d with
                     | SrcSnapshot id => bd_snapshot_id bd = Some id /\ bd_volume_id bd = None
                     | SrcVolume id => bd_snapshot_id bd = None /\ bd_volume_id bd = Some id
                     | SrcImage _ => bd_snapshot_id bd = None /\ bd_volume_id bd = None
                     | SrcNone => bd_snapshot_id bd = None /\ is_Some (bd_volume_id bd)
                     end)
          (resolve_source provider d zone new_bd_type).
Proof.
  unfold resolve_source. destruct (source d); try by apply returns_ret.
  destruct (negb _); [apply returns_raise|].
  eapply returns_bind; [apply returns_any|intros v _].
  eapply returns_bind; [apply returns_any|intros v' _].
  apply returns_ret. by repeat split.
Qed.

(** One volume device: it takes its device name, and its entry
    describes it. *)
Lemma process_device_volume zone st d w st' w' :
  is_volume d = true ->
  process_device provider zone st d w = (Ok st', w') ->
  exists key bd,
    describes d bd /\
    bdm st' = <[key := bd]> (bdm st) /\
    ephemeral_counter st' = ephemeral_counter st /\
    if is_root d then key = "/dev/sda1" /\ next_letter st' = next_letter st
    else exists c, next_letter st = c :: next_letter st' /\
                   key = "sd" +:+ str_of_char c.
Proof.
  intros Hv. unfold process_device. rewrite Hv. intros Hrun.
  apply bind_inv in Hrun as [(slot & w1 & Hslot & Hrun)|(? & _ & [=])].
  apply bind_inv in Hrun as [(bd & w2 & Hsrc & [= <- <-])|(? & _ & [=])].
  apply returns_resolve_source in Hsrc as (He & Hd & Hs & Hsrc).
  eexists _, _. simpl. split_and!; [| reflexivity | done |].
  - unfold describes. destruct (truthy_int (size d)) eqn:Hsz; simpl.
    + split_and!; try done. destruct (size d); [done|discriminate].
    + by split_and!.
  - destruct (is_root d).
    + by injection Hslot as <- _.
    + destruct (next_letter st) as [|c rest]; [done|].
      injection Hslot as <- _. by exists c.
Qed.

(** The loop, device by device: the volume devices take their names in
    order, the ephemeral ones leave no mark. *)
Lemma for_each_process_device zone devs st w st' w' :
  for_each (process_device provider zone) devs st w = (Ok st', w') ->
  exists keys bds,
    slots (List.filter is_volume devs) (next_letter st) = Some keys /\
    Forall2 describes (List.filter is_volume devs) bds /\
    length keys = length bds /\
    bdm st' = insert_all (zip keys bds) (bdm st) /\
    ephemeral_counter st' = ephemeral_counter st.
Proof.
  revert st w. induction devs as [|d devs IH]; intros st w; simpl.
  - intros [= <- <-]. by exists [], [].
  - intros Hrun.
    apply bind_inv in Hrun as [(st1 & w1 & Hd & Hrest)|(? & _ & [=])].
    destruct (is_volume d) eqn:Hv.
    + destruct (process_device_volume _ _ _ _ _ _ Hv Hd)
        as (key & bd & Hbd & Hm & Hc & Hkey).
      destruct (IH _ _ Hrest) as (keys & bds & Hs & Hf & Hl & Hm' & Hc').
      exists (key :: keys), (bd :: bds). simpl.
      split_and!; [|by constructor|by rewrite Hl| |congruence].
      * destruct (is_root d).
        -- destruct Hkey as [-> <-]. by rewrite Hs.
        -- destruct Hkey as (c & -> & ->). by rewrite Hs.
      * unfold insert_all in *. simpl. by rewrite <- Hm.
    + rewrite process_device_ephemeral in Hd by done. injection Hd as <- <-.
      by apply IH in Hrest.
Qed.

(** No entry of a finished mapping names an ephemeral device. *)
Lemma ephemeral_never_mapped launch_config zone w m :
  (_process_block_device_mappings provider launch_config zone w).1 = Ok m ->
  forall key bd, m !! key = Some bd -> bd_ephemeral_name bd = None.
Proof.
  unfold _process_block_device_mappings. intros Hrun.
  destruct (bind _ _ w) as [r w'] eqn:Hb. simpl in Hrun. subst r.
  apply bind_inv in Hb as [(st' & w1 & Hloop & [= <- _])|(? & _ & [=])].
  apply for_each_process_device in Hloop as (keys & bds & _ & Hf & _ & -> & _).
  simpl. assert (Hall : Forall (fun bd => bd_ephemeral_name bd = None) bds).
  { clear -Hf. induction Hf as [|d bd ? ? (_ & _ & He & _)]; by constructor. }
  clear Hf. unfold insert_all.
  assert (Hgen : forall m0 : BlockDeviceMapping,
             (forall key bd, m0 !! key = Some bd -> bd_ephemeral_name bd = None) ->
             forall key bd, fold_left (fun m kb => <[kb.1 := kb.2]> m)
                                      (zip keys bds) m0 !! key = Some bd ->
                            bd_ephemeral_name bd = None).
  { revert keys. induction Hall as [|bd0 bds Hbd0 _ IH]; intros keys m0 Hm0 key bd.
    - destruct keys; simpl; apply Hm0.
    - destruct keys as [|k keys]; simpl; [apply Hm0|].
      apply IH. intros key' bd'. rewrite lookup_insert.
      case_decide; [by intros [= <-] | apply Hm0]. }
  apply Hgen. intros key bd. by rewrite lookup_empty.
Qed.

(** Volumes that all have a source, and letters enough for them: the
    mapping is built, and nothing is asked of the provider. *)
Lemma for_each_given zone devs st w :
  Forall (fun x => blank_volume x = false) devs ->
  length (List.filter nonroot_volume devs) <= length (next_letter st) ->
  exists st', for_each (process_device provider zone) devs st w = (Ok st', w).
Proof.
  intros Hdevs. revert st. induction Hdevs as [|x devs Hx _ IH]; intros st Hlen.
  - by eexists.
  - simpl in *. unfold nonroot_volume in Hlen at 1.
    destruct (is_volume x) eqn:Hv; simpl in Hlen.
    + unfold blank_volume in Hx. rewrite Hv in Hx. simpl in Hx.
      assert (Hsrc : forall bd, exists bd',
                 resolve_source provider x zone bd w = (Ok bd', w)).
      { intros bd. unfold resolve_source. destruct (source x); try done; by eexists. }
      destruct (Hsrc new_bd_type) as [bd Hbd].
      unfold process_device at 1. rewrite Hv.
      destruct (is_root x); simpl in Hlen.
      * erewrite bind_Ok; cycle 1.
        { erewrite bind_Ok by reflexivity. erewrite bind_Ok by exact Hbd.
          reflexivity. }
        by apply IH.
      * destruct (next_letter st) as [|c rest] eqn:Hl; simpl in Hlen; [lia|].
        erewrite bind_Ok; cycle 1.
        { erewrite bind_Ok by reflexivity. erewrite bind_Ok by exact Hbd.
          reflexivity. }
        apply IH. simpl. lia.
    + erewrite bind_Ok by (by apply process_device_ephemeral). by apply IH.
Qed.
End BlockDevices.

Lemma filter_nonroot_volume (l : list Device) :
  List.filter nonroot_volume (List.filter is_volume l) = List.filter nonroot_volume l.
Proof.
  induction l as [|x l IH]; simpl; [done|]. unfold nonroot_volume at 2.
  destruct (is_volume x) eqn:Hv; simpl; [|done].
  unfold nonroot_volume at 1. by rewrite Hv, IH.
Qed.

Lemma Forall_not_blank (l : list Device) :
  Forall (fun x => blank_volume x = false) (List.filter is_volume l) ->
  Forall (fun x => blank_volume x = false) l.
Proof.
  induction l as [|x l IH]; simpl; [done|].
  destruct (is_volume x) eqn:Hv.
  - intros [Hx Hl]%Forall_cons. constructor; auto.
  - intros Hl. constructor; [|auto]. unfold blank_volume. by rewrite Hv.
Qed.

(** C3, where the code departs from it.  The loop builds a [bd_type]
    named [ephemeral0] for an ephemeral device, but never stores it in the
    mapping and never advances the counter: two ephemeral devices leave
    the mapping empty, and the second one would again be [ephemeral0]. *)
Theorem C3_ephemeral_not_mapped :
  (_process_block_device_mappings Demo.aws
     (Demo.config [Demo.ephemeral_disk; Demo.ephemeral_disk] []) None Demo.start).1
    = Ok ∅ /\
  (for_each (process_device Demo.aws None) [Demo.ephemeral_disk]
     {| next_letter := []; ephemeral_counter := 0; bdm := ∅ |} Demo.start).1
    = Ok {| next_letter := []; ephemeral_counter := 0; bdm := ∅ |} /\
  ephemeral_name_of 0 = "ephemeral0" /\ ephemeral_name_of 1 = "ephemeral1".
Proof. repeat split. Qed.

Lemma ephemeral_never_mapped_witness :
  bd_ephemeral_name Demo.snapshot_entry = None.
Proof.
  apply (ephemeral_never_mapped Demo.aws Demo.three_volumes None Demo.start
           (<["sdh" := Demo.snapshot_entry]>
              (<["/dev/sda1" := Demo.snapshot_entry]>
                 (<["sdg" := Demo.snapshot_entry]> ∅)) : BlockDeviceMapping))
    with (key := "sdg").
  - vm_compute. reflexivity.
  - reflexivity.
Defined.

Lemma slots_three (r a b : Device) (vols : list Device) :
  is_root r = true -> is_root a = false -> is_root b = false ->
  vols = [r; a; b] \/ vols = [a; r; b] \/ vols = [a; b; r] ->
  exists k1 k2 k3,
    slots vols (drop 6 (String.list_ascii_of_string ascii_lowercase))
      = Some [k1; k2; k3] /\
    ((vols = [r; a; b] /\ k1 = "/dev/sda1" /\ k2 = "sdg" /\ k3 = "sdh") \/
     (vols = [a; r; b] /\ k1 = "sdg" /\ k2 = "/dev/sda1" /\ k3 = "sdh") \/
     (vols = [a; b; r] /\ k1 = "sdg" /\ k2 = "sdh" /\ k3 = "/dev/sda1")).
Proof.
  intros Hr Ha Hb [-> | [-> | ->]]; simpl; rewrite Hr, Ha, Hb; simpl;
    eexists _, _, _; (split; [reflexivity|]); naive_solver.
Qed.

(** C9.  The mapping of a launch configuration whose volume devices are
    one root volume and two others, with ephemeral devices anywhere
    between them: the root volume is at [/dev/sda1] wherever it stands,
    the two others are at [sdg] and [sdh] in their order, and the mapping
    has no other entry.  The letters start at g, and the ephemeral devices
    take none.  When the three volumes have a source the mapping is always
    built, and without a call to the provider. *)
Theorem C9_root_g_h (provider : Provider) (launch_config : LaunchConfig)
    (zone : option string) (w : World) (r a b : Device) :
  is_root r = true -> is_root a = false -> is_root b = false ->
  List.filter is_volume (block_devices launch_config) = [r; a; b] \/
  List.filter is_volume (block_devices launch_config) = [a; r; b] \/
  List.filter is_volume (block_devices launch_config) = [a; b; r] ->
  (forall m : BlockDeviceMapping,
     (_process_block_device_mappings provider launch_config zone w).1 = Ok m ->
     exists bd_r bd_a bd_b,
       m !! "/dev/sda1" = Some bd_r /\ describes r bd_r /\
       m !! "sdg" = Some bd_a /\ describes a bd_a /\
       m !! "sdh" = Some bd_b /\ describes b bd_b /\
       dom m = {[ "/dev/sda1"; "sdg"; "sdh" ]})
  /\
  (blank_volume r = false -> blank_volume a = false -> blank_volume b = false ->
   exists m : BlockDeviceMapping,
     _process_block_device_mappings provider launch_config zone w = (Ok m, w)).
Proof.
  intros Hr Ha Hb Hvols. split.
  - unfold _process_block_device_mappings. intros m Hrun.
    destruct (bind _ _ w) as [res w'] eqn:Hbind. simpl in Hrun. subst res.
    apply bind_inv in Hbind as [(st' & w1 & Hloop & [= <- _])|(? & _ & [=])].
    apply for_each_process_device in Hloop as (keys & bds & Hs & Hf & Hl & -> & _).
    cbn [next_letter] in Hs.
    destruct (slots_three r a b _ Hr Ha Hb Hvols) as (k1 & k2 & k3 & Hs' & Hcase).
    rewrite Hs' in Hs. injection Hs as <-.
    destruct bds as [|b1 [|b2 [|b3 [|]]]]; try done.
    unfold insert_all. simpl.
    destruct Hcase as [Hc|[Hc|Hc]]; destruct Hc as (Hv & -> & -> & ->);
      rewrite Hv in Hf;
      apply Forall2_cons_1 in Hf as [H1 Hf];
      apply Forall2_cons_1 in Hf as [H2 Hf];
      apply Forall2_cons_1 in Hf as [H3 _].
    + exists b1, b2, b3.
      split_and!; first [done | by simplify_map_eq | set_solver].
    + exists b2, b1, b3.
      split_and!; first [done | by simplify_map_eq | set_solver].
    + exists b3, b1, b2.
      split_and!; first [done | by simplify_map_eq | set_solver].
  - intros Br Ba Bb. unfold _process_block_device_mappings.
    set (st := {| next_letter := _; ephemeral_counter := _; bdm := _ |}).
    destruct (for_each_given provider zone (block_devices launch_config) st w)
      as [st' Hst'].
    + apply Forall_not_blank.
      destruct Hvols as [-> | [-> | ->]]; by repeat constructor.
    + rewrite <- filter_nonroot_volume.
      destruct Hvols as [-> | [-> | ->]]; simpl; unfold nonroot_volume;
        destruct (is_volume r), (is_volume a), (is_volume b);
        rewrite ?Hr, ?Ha, ?Hb; simpl; lia.
    + exists (bdm st'). by erewrite bind_Ok by exact Hst'.
Qed.

Lemma C9_root_g_h_witness :
  (exists bd_r bd_a bd_b,
    (<["sdh" := Demo.snapshot_entry]>
       (<["/dev/sda1" := Demo.snapshot_entry]>
          (<["sdg" := Demo.snapshot_entry]> ∅)) : BlockDeviceMapping)
      !! "/dev/sda1" = Some bd_r /\
    describes (Demo.snapshot_disk true) bd_r /\
    (<["sdh" := Demo.snapshot_entry]>
       (<["/dev/sda1" := Demo.snapshot_entry]>
          (<["sdg" := Demo.snapshot_entry]> ∅)) : BlockDeviceMapping)
      !! "sdg" = Some bd_a /\
    describes (Demo.snapshot_disk false) bd_a /\
    (<["sdh" := Demo.snapshot_entry]>
       (<["/dev/sda1" := Demo.snapshot_entry]>
          (<["sdg" := Demo.snapshot_entry]> ∅)) : BlockDeviceMapping)
      !! "sdh" = Some bd_b /\
    describes (Demo.snapshot_disk false) bd_b /\
    dom (<["sdh" := Demo.snapshot_entry]>
           (<["/dev/sda1" := Demo.snapshot_entry]>
              (<["sdg" := Demo.snapshot_entry]> ∅)) : BlockDeviceMapping)
      = {[ "/dev/sda1"; "sdg"; "sdh" ]}) /\
  (exists m : BlockDeviceMapping,
     _process_block_device_mappings Demo.aws Demo.three_volumes None Demo.start
       = (Ok m, Demo.start)).
Proof.
  pose proof (C9_root_g_h Demo.aws Demo.three_volumes None Demo.start
                (Demo.snapshot_disk true) (Demo.snapshot_disk false)
                (Demo.snapshot_disk false) eq_refl eq_refl eq_refl
                (or_intror (or_introl eq_refl))) as [Hmap Hbuilt].
  split.
  - apply Hmap. vm_compute. reflexivity.
  - apply Hbuilt; reflexivity.
Defined.

Section BlankVolumes.
Context (provider : Provider).

(** A volume with a source is resolved without a word to the provider. *)
Lemma resolve_source_given d zone bd w :
  blank_volume d = false -> is_volume d = true ->
  exists bd', resolve_source provider d zone bd w = (Ok bd', w).
Proof.
  unfold blank_volume, resolve_source. intros Hb Hv. rewrite Hv in Hb.
  destruct (source d); try done; by eexists.
Qed.

(** With no zone, the loop stops at the first blank volume, or before it
    when the letters run out, and nothing was asked of the provider. *)
Lemma for_each_blank_volume zone pre d post st w :
  truthy zone = false ->
  blank_volume d = true ->
  Forall (fun x => blank_volume x = false) pre ->
  for_each (process_device provider zone) (pre ++ d :: post) st w =
  (Raise (if (length (List.filter nonroot_volume (pre ++ [d]))
                <=? length (next_letter st))%nat
          then InvalidConfigurationException else StopIteration), w).
Proof.
  intros Hz Hd Hpre. revert st.
  induction Hpre as [|x pre Hx _ IH]; intros st.
  - simpl. apply bind_Raise. unfold process_device, nonroot_volume.
    unfold blank_volume in Hd. apply andb_prop in Hd as [-> Hsrc]. simpl.
    destruct (is_root d); simpl.
    + erewrite bind_Ok by reflexivity. apply bind_Raise.
      unfold resolve_source. destruct (source d); try done. by rewrite Hz.
    + destruct (next_letter st) as [|c rest]; simpl.
      * by apply bind_Raise.
      * erewrite bind_Ok by reflexivity. apply bind_Raise.
        unfold resolve_source. destruct (source d); try done. by rewrite Hz.
  - simpl. unfold nonroot_volume at 1.
    destruct (is_volume x) eqn:Hv; simpl.
    + unfold process_device at 1. rewrite Hv.
      destruct (is_root x); simpl.
      * destruct (resolve_source_given x zone new_bd_type w Hx Hv) as [bd Hbd].
        erewrite bind_Ok; cycle 1.
        { erewrite bind_Ok by reflexivity. erewrite bind_Ok by exact Hbd.
          reflexivity. }
        by rewrite IH.
      * destruct (next_letter st) as [|c rest] eqn:Hl; simpl.
        -- apply bind_Raise. by apply bind_Raise.
        -- destruct (resolve_source_given x zone new_bd_type w Hx Hv) as [bd Hbd].
           erewrite bind_Ok; cycle 1.
           { erewrite bind_Ok by reflexivity. erewrite bind_Ok by exact Hbd.
             reflexivity. }
           by rewrite IH.
    + erewrite bind_Ok by (by apply process_device_ephemeral). apply IH.
Qed.
End BlankVolumes.

(** C5, as the code has it.  The launch configuration holds a blank
    volume and no zone is supplied.  The launch fails, and nothing at all
    was asked of the provider: no volume created, no instance launched.
    The failure is the Configuration error whenever the volumes up to and
    including the first blank one need at most the 20 letters g to z. *)
Theorem C5_blank_volume_needs_zone (provider : Provider)
    (name image instance_type : string) (zone key_pair : option string)
    (groups : SecurityGroups) (user_data : option string)
    (launch_config : LaunchConfig) (pre : list Device) (d : Device)
    (post : list Device) (w : World) :
  truthy zone = false ->
  block_devices launch_config = pre ++ d :: post ->
  blank_volume d = true ->
  Forall (fun x => blank_volume x = false) pre ->
  exists e,
    AWSInstanceService_create provider name image instance_type zone key_pair
      groups user_data (Some launch_config) w = (Raise e, w) /\
    (length (List.filter nonroot_volume (pre ++ [d])) <= 20 ->
     e = InvalidConfigurationException /\ classify e = Some Configuration).
Proof.
  intros Hz Hdevs Hd Hpre. eexists. split.
  - unfold AWSInstanceService_create. apply bind_Raise. apply bind_Raise.
    unfold _process_block_device_mappings. apply bind_Raise.
    rewrite Hdevs. by apply for_each_blank_volume.
  - intros Hlen. cbn [next_letter].
    rewrite (proj2 (Nat.leb_le _ _)); [done|]. exact Hlen.
Qed.

Lemma C5_blank_volume_needs_zone_witness :
  exists e,
    AWSInstanceService_create Demo.aws "web-1" "ami-1" "t2.micro" None None
      NoGroups None (Some Demo.with_blank) Demo.start = (Raise e, Demo.start) /\
    (length (List.filter nonroot_volume ([Demo.snapshot_disk false] ++ [Demo.blank_disk]))
       <= 20 ->
     e = InvalidConfigurationException /\ classify e = Some Configuration).
Proof.
  apply (C5_blank_volume_needs_zone Demo.aws "web-1" "ami-1" "t2.micro" None None
           NoGroups None Demo.with_blank [Demo.snapshot_disk false] Demo.blank_disk
           [Demo.snapshot_disk true] Demo.start); try reflexivity.
  repeat constructor.
Defined.

(** C5 as stated fails: twenty data volumes take the letters g to z, the
    blank volume after them asks for a letter before its zone is looked
    at, and the launch fails with [StopIteration], which is not a
    Configuration error. *)
Lemma C5_counterexample :
  blank_volume Demo.blank_disk = true /\
  In Demo.blank_disk (block_devices Demo.crowded) /\
  AWSInstanceService_create Demo.aws "web-1" "ami-1" "t2.micro" None None
    NoGroups None (Some Demo.crowded) Demo.start = (Raise StopIteration, Demo.start) /\
  classify StopIteration = None.
Proof.
  split; [reflexivity|]. split; [|split; reflexivity].
  unfold Demo.crowded. simpl. do 20 right. by left.
Qed.

(** * More of the adapter *)

Section AdapterReads.
Context {Raw : Type} `{Resource Raw} (self : EC2ServiceFilter Raw).

Lemma find_eq val filter_name w :
  find self val filter_name w =
  (Ok (match on_filter self w filter_name val with Replied l => l | Failed => [] end),
   record (Filter (service self) filter_name val) w).
Proof.
  unfold find, try_except_ec2, bind, call, ClientPagedResultList.
  by destruct (on_filter self w filter_name val).
Qed.

Lemma list_eq w :
  list_ self w =
  (Ok (match on_limit self w with Replied l => l | Failed => [] end),
   record (Limit (service self)) w).
Proof.
  unfold list_, try_except_ec2, bind, call, ClientPagedResultList.
  by destruct (on_limit self w).
Qed.

Lemma delete_eq val filter_name w :
  delete self val filter_name w =
  match found (on_filter self w filter_name val) with
  | None => (Ok true, record (Filter (service self) filter_name val) w)
  | Some res =>
      (Ok (accepted (on_delete self (record (Filter (service self) filter_name val) w) res)),
       record (ResDelete (service self) (id_of res))
              (record (Filter (service self) filter_name val) w))
  end.
Proof.
  unfold delete. erewrite bind_Ok by apply get_eq.
  destruct (found _) as [res|]; [|done].
  unfold try_except_ec2, bind, call. by destruct (on_delete _ _ _).
Qed.

Lemma issues_wait_for_delete_loop val filter_name n :
  issues read_only never (wait_for_delete_loop self val filter_name n).
Proof.
  induction n as [|n IH]; simpl; [apply issues_ret|].
  apply issues_bind; [by apply issues_sleep|intros _].
  apply issues_bind; [apply issues_get|intros [obj|]]; [done|apply issues_ret].
Qed.


(** [get] answers the first of what [find] answers for the same filter,
    and [None] exactly when [find] answers nothing. *)
Theorem get_is_head_of_find val filter_name wrapper w :
  exists l,
    find self val filter_name w
      = (Ok l, record (Filter (service self) filter_name val) w) /\
    get self val filter_name wrapper w
      = (Ok (head l), record (Filter (service self) filter_name val) w).
Proof.
  rewrite get_eq, find_eq. eexists. split; [done|].
  by destruct (on_filter self w filter_name val).
Qed.

(** With a timeout of zero or less, a wait gives up at once: no sleep and
    no look at the provider. *)
Theorem wait_nonpositive_timeout val filter_name timeout w :
  (timeout <= 0)%Q ->
  wait_for_create self val filter_name timeout w = (Ok PyFalse, w) /\
  wait_for_delete self val filter_name timeout w = (Ok false, w).
Proof.
  intros Ht. unfold wait_for_create, wait_for_delete.
  by rewrite (rounds_nonpositive _ Ht).
Qed.

Lemma polled_S val filter_name k w :
  polled self val filter_name (S k) w
  = polled self val filter_name k (poll self val filter_name w).2.
Proof. done. Qed.

(** [wait_for_create] reports a timeout exactly when none of its rounds
    sees the resource; [True] and [None] tell a wrapper class with a
    callable [refresh] from one without.  When round [k] is the first to
    see the resource, the wait ends there: with [None] if the class has
    no callable [refresh]; else with the refresh of the object, and then
    [True] if the provider accepts the refresh and [EC2ResponseError],
    which nothing handles, if it refuses. *)
Theorem wait_for_create_outcome val filter_name timeout w :
  ((wait_for_create self val filter_name timeout w).1 = Ok PyFalse <->
   forall k, (k < rounds timeout)%nat ->
             (poll self val filter_name (polled self val filter_name k w)).1 = None) /\
  ((wait_for_create self val filter_name timeout w).1 = Ok PyTrue ->
   can_refresh (iface_refresh self) = true) /\
  ((wait_for_create self val filter_name timeout w).1 = Ok PyNothing ->
   can_refresh (iface_refresh self) = false) /\
  (forall k obj,
     (k < rounds timeout)%nat ->
     (forall j, (j < k)%nat ->
                (poll self val filter_name (polled self val filter_name j w)).1 = None) ->
     (poll self val filter_name (polled self val filter_name k w)).1 = Some obj ->
     wait_for_create self val filter_name timeout w =
     if can_refresh (iface_refresh self)
     then (if accepted (on_refresh self
                          (poll self val filter_name (polled self val filter_name k w)).2
                          obj)
           then Ok PyTrue else Raise EC2ResponseError,
           record (Refresh (service self) (id_of obj))
                  (poll self val filter_name (polled self val filter_name k w)).2)
     else (Ok PyNothing,
           (poll self val filter_name (polled self val filter_name k w)).2)).
Proof.
  unfold wait_for_create. generalize (rounds timeout) as n. intros n.
  revert w. induction n as [|n IH]; intros w.
  - simpl. split_and!; try done; [|intros; lia]. split; [intros _ k; lia|done].
  - rewrite wait_for_create_loop_S.
    destruct (poll self val filter_name w).1 as [obj|] eqn:E.
    + assert (Hseen : ~ forall k, (k < S n)%nat ->
                (poll self val filter_name (polled self val filter_name k w)).1 = None).
      { intros Hall. specialize (Hall 0%nat ltac:(lia)).
        simpl polled in Hall. congruence. }
      split_and!.
      * destruct (can_refresh _); [destruct (accepted _)|]; by split.
      * destruct (can_refresh _); [done|]. by intros [=].
      * destruct (can_refresh _); [|done]. by destruct (accepted _).
      * intros [|k] obj' Hk Hbefore Hsee.
        -- simpl polled in Hsee. rewrite E in Hsee. by injection Hsee as <-.
        -- specialize (Hbefore 0%nat ltac:(lia)). simpl polled in Hbefore. congruence.
    + destruct (IH (poll self val filter_name w).2) as (Hf & Ht & Hn & Hfirst).
      split_and!; try done.
      * rewrite Hf. split.
        -- intros Hall [|k] Hk; [done|]. rewrite polled_S. apply Hall. lia.
        -- intros Hall k Hk. rewrite <- polled_S. apply Hall. lia.
      * intros [|k] obj' Hk Hbefore Hsee.
        -- simpl polled in Hsee. congruence.
        -- rewrite polled_S in *. apply Hfirst; [lia| |done].
           intros j Hj. rewrite <- polled_S. apply Hbefore. lia.
Qed.

(** [wait_for_delete] answers [False] exactly when every round still
    sees the resource; when round [k] is the first that sees nothing, it
    answers [True] right after that round. *)
Theorem wait_for_delete_outcome val filter_name timeout w :
  ((wait_for_delete self val filter_name timeout w).1 = Ok false <->
   forall k, (k < rounds timeout)%nat ->
             is_Some (poll self val filter_name (polled self val filter_name k w)).1) /\
  (forall k,
     (k < rounds timeout)%nat ->
     (forall j, (j < k)%nat ->
        is_Some (poll self val filter_name (polled self val filter_name j w)).1) ->
     (poll self val filter_name (polled self val filter_name k w)).1 = None ->
     wait_for_delete self val filter_name timeout w =
     (Ok true, (poll self val filter_name (polled self val filter_name k w)).2)).
Proof.
  unfold wait_for_delete. generalize (rounds timeout) as n. intros n.
  revert w. induction n as [|n IH]; intros w.
  - simpl. split; [|intros; lia]. split; [intros _ k; lia|done].
  - rewrite wait_for_delete_loop_S.
    destruct (poll self val filter_name w).1 as [obj|] eqn:E.
    + destruct (IH (poll self val filter_name w).2) as (Hf & Hfirst).
      split.
      * rewrite Hf. split.
        -- intros Hall [|k] Hk; [simpl polled; by rewrite E|].
           rewrite polled_S. apply Hall. lia.
        -- intros Hall k Hk. rewrite <- polled_S. apply Hall. lia.
      * intros [|k] Hk Hbefore Hgone.
        -- simpl polled in Hgone. congruence.
        -- rewrite polled_S in *. apply Hfirst; [lia| |done].
           intros j Hj. rewrite <- polled_S. apply Hbefore. lia.
    + cbn [fst]. split.
      * split; [done|].
        intros Hall. specialize (Hall 0%nat ltac:(lia)). simpl polled in Hall.
        rewrite E in Hall. by destruct Hall.
      * intros [|k] Hk Hbefore Hgone; [done|].
        specialize (Hbefore 0%nat ltac:(lia)). simpl polled in Hbefore.
        rewrite E in Hbefore. by destruct Hbefore.
Qed.
End AdapterReads.


Lemma wait_nonpositive_timeout_witness :
  wait_for_create Demo.twin_volumes "vol-1" "volume-id" (-3) Demo.start
    = (Ok PyFalse, Demo.start) /\
  wait_for_delete Demo.twin_volumes "vol-1" "volume-id" (-3) Demo.start
    = (Ok false, Demo.start).
Proof.
  apply (wait_nonpositive_timeout Demo.twin_volumes "vol-1" "volume-id" (-3) Demo.start).
  discriminate.
Defined.

Lemma wait_for_create_outcome_witness :
  wait_for_create (Demo.stale_volumes 2) "vol-1" "volume-id" timeout_default Demo.start
  = (Raise EC2ResponseError,
     {| clock := 4;
        trace := [Sleep 2; Filter "volumes" "volume-id" "vol-1";
                  Sleep 2; Filter "volumes" "volume-id" "vol-1";
                  Refresh "volumes" "vol-1"] |}).
Proof.
  etransitivity.
  - apply (proj2 (proj2 (proj2 (wait_for_create_outcome (Demo.stale_volumes 2)
             "vol-1" "volume-id" timeout_default Demo.start))) 1%nat Demo.vol1).
    + vm_compute. lia.
    + intros [|j] Hj; [reflexivity|lia].
    + reflexivity.
  - reflexivity.
Defined.

Lemma wait_for_delete_outcome_witness :
  wait_for_delete Demo.empty_volumes "vol-1" "volume-id" timeout_default Demo.start
  = (Ok true,
     {| clock := 2; trace := [Sleep 2; Filter "volumes" "volume-id" "vol-1"] |}).
Proof.
  etransitivity.
  - apply (proj2 (wait_for_delete_outcome Demo.empty_volumes
             "vol-1" "volume-id" timeout_default Demo.start) 0%nat).
    + vm_compute. lia.
    + intros j Hj. lia.
    + reflexivity.
  - reflexivity.
Defined.

(** * More of the services *)

Lemma filter_read_only (t : list Event) :
  Forall read_only t -> List.filter is_mutating t = [].
Proof.
  induction 1 as [|e t He _ IH]; simpl; [done|].
  unfold read_only in He. by rewrite He.
Qed.

Section ServiceDeletes.
Context (provider : Provider).

(** Deleting what is not there through a service answers [None], after
    the one lookup: a group whose id is not found, a volume or a snapshot
    whose name nothing carries. *)
Theorem service_delete_absent (group_id name : string) (w : World) :
  ((get (security_groups provider) group_id "group-id" true w).1 = Ok None ->
   AWSSecurityGroupService_delete provider group_id w
     = (Ok None, record (Filter (service (security_groups provider))
                                "group-id" group_id) w)) /\
  ((find (volumes provider) name "tag:Name" w).1 = Ok [] ->
   AWSVolumeService_delete provider name w
     = (Ok None, record (Filter (service (volumes provider)) "tag:Name" name) w)) /\
  ((find (snapshots provider) name "tag:Name" w).1 = Ok [] ->
   AWSSnapshotService_delete provider name w
     = (Ok None, record (Filter (service (snapshots provider)) "tag:Name" name) w)).
Proof.
  split_and!.
  - rewrite get_eq. simpl. intros [= Hg].
    unfold AWSSecurityGroupService_delete.
    erewrite bind_Ok by apply get_eq. by rewrite Hg.
  - rewrite find_eq. simpl. intros [= Hf].
    unfold AWSVolumeService_delete.
    erewrite bind_Ok by apply find_eq. by rewrite Hf.
  - rewrite find_eq. simpl. intros [= Hf].
    unfold AWSSnapshotService_delete.
    erewrite bind_Ok by apply find_eq. by rewrite Hf.
Qed.

(** Deleting a volume by name: however many volumes carry the name, one
    delete call is issued, for the volume found under the id of the first
    of them; the answer is that of the wait that follows, whatever the
    provider said to the delete call. *)
Theorem AWSVolumeService_delete_first_only (name : string) (w : World)
    (v : Volume) (rest : list Volume) (res : Volume) :
  (find (volumes provider) name "tag:Name" w).1 = Ok (v :: rest) ->
  (get (volumes provider) (id_of v) "volume-id" false
       (find (volumes provider) name "tag:Name" w).2).1 = Ok (Some res) ->
  List.filter is_mutating (since w (AWSVolumeService_delete provider name w).2)
    = [ResDelete (service (volumes provider)) (id_of res)] /\
  exists gone,
    (wait_for_delete (volumes provider) (id_of v) "volume-id" timeout_default
       (delete (volumes provider) (id_of v) "volume-id"
          (find (volumes provider) name "tag:Name" w).2).2).1 = Ok gone /\
    (AWSVolumeService_delete provider name w).1 = Ok (Some gone).
Proof.
  rewrite find_eq. cbn [fst snd]. intros [= Hf]. rewrite get_eq. cbn [fst]. intros [= Hg].
  unfold AWSVolumeService_delete.
  erewrite bind_Ok by apply find_eq. rewrite Hf.
  rewrite delete_eq, Hg. cbn [snd].
  erewrite bind_Ok by (rewrite delete_eq, Hg; reflexivity).
  set (w2 := record (ResDelete _ _) _).
  destruct (wait_for_delete (volumes provider) (id_of v) "volume-id"
              timeout_default w2) as [r w3] eqn:Hw.
  pose proof (issues_wait_for_delete_loop (volumes provider) _ _ _ _ _ _ Hw)
    as [(t & Ht & Hread) Hnever].
  destruct r as [gone|e]; [|by destruct (Hnever e)].
  erewrite bind_Ok by exact Hw. cbn [fst snd ret]. split.
  - rewrite (since_app w w3 ([Filter (service (volumes provider)) "tag:Name" name;
                              Filter (service (volumes provider)) "volume-id" (id_of v);
                              ResDelete (service (volumes provider)) (id_of res)] ++ t)).
    + rewrite List.filter_app, (filter_read_only t Hread). done.
    + rewrite Ht. subst w2. simpl. by rewrite <- !app_assoc.
  - by exists gone.
Qed.
End ServiceDeletes.

Lemma service_delete_absent_witness :
  AWSSecurityGroupService_delete Demo.aws "sg-9" Demo.start
    = (Ok None, record (Filter "security_groups" "group-id" "sg-9") Demo.start) /\
  AWSVolumeService_delete
    (Demo.account_with [Demo.sg1] [Demo.vpc1] Demo.empty_volumes) "data" Demo.start
    = (Ok None, record (Filter "volumes" "tag:Name" "data") Demo.start).
Proof.
  split.
  - exact (proj1 (service_delete_absent Demo.aws "sg-9" "data" Demo.start) eq_refl).
  - exact (proj1 (proj2 (service_delete_absent
             (Demo.account_with [Demo.sg1] [Demo.vpc1] Demo.empty_volumes)
             "sg-9" "data" Demo.start)) eq_refl).
Defined.

Lemma AWSVolumeService_delete_first_only_witness :
  List.filter is_mutating
    (since Demo.start
       (AWSVolumeService_delete
          (Demo.account_with [Demo.sg1] [Demo.vpc1] Demo.twin_volumes) "data"
          Demo.start).2)
    = [ResDelete "volumes" "vol-1"] /\
  exists gone,
    (wait_for_delete Demo.twin_volumes "vol-1" "volume-id" timeout_default
       (delete Demo.twin_volumes "vol-1" "volume-id"
          (find Demo.twin_volumes "data" "tag:Name" Demo.start).2).2).1 = Ok gone /\
    (AWSVolumeService_delete
       (Demo.account_with [Demo.sg1] [Demo.vpc1] Demo.twin_volumes) "data"
       Demo.start).1 = Ok (Some gone).
Proof.
  exact (AWSVolumeService_delete_first_only
           (Demo.account_with [Demo.sg1] [Demo.vpc1] Demo.twin_volumes) "data"
           Demo.start Demo.vol1 [Demo.vol2] Demo.vol1 eq_refl eq_refl).
Defined.

Section ServiceCreates.
Context (provider : Provider).


(** When [AWSVolumeService.create] returns [None], the volume was
    created all the same: the calls it issued that change anything at the
    provider are the one [create_volume], and nothing takes it back. *)
Theorem AWSVolumeService_create_none_keeps_volume (name zone : string)
    (size iops : option Z) (snapshot description : option string) (w w' : World) :
  AWSVolumeService_create provider name size zone snapshot iops description w
    = (Ok None, w') ->
  exists args,
    List.filter is_mutating (since w w') = [Ec2Call "create_volume" args].
Proof.
  unfold AWSVolumeService_create, create. intros Hrun.
  apply bind_inv in Hrun as [(res & w1 & Hc & Hrun)|(? & _ & [=])].
  apply bind_inv in Hc as [(res' & w0 & Hc & [= <- <-])|(? & _ & [=])].
  assert (Hw0 : exists args, trace w0 = trace w ++ [Ec2Call "create_volume" args]).
  { unfold call in Hc. destruct (on_method _ _ _ _); [|done].
    injection Hc as _ <-. by eexists. }
  destruct Hw0 as [args Hw0]. exists args.
  apply bind_inv in Hrun as [(r & w1 & Hr & Hrun)|(? & _ & [=])].
  destruct res' as [r'|]; [|done]. injection Hr as <- <-.
  apply bind_inv in Hrun as [(ok & w2 & Hwait & Hrun)|(? & _ & [=])].
  destruct (issues_wait_for_create _ _ _ _ _ _ _ Hwait) as [(t & Ht & Hread) _].
  destruct (negb (truthy_tri ok)).
  - injection Hrun as <-.
    rewrite (since_app w w2 ([Ec2Call "create_volume" args] ++ t)).
    + by rewrite List.filter_app, (filter_read_only t Hread).
    + by rewrite Ht, Hw0, <- app_assoc.
  - apply bind_inv in Hrun as [(? & w3 & _ & Hrun)|(? & _ & [=])].
    apply bind_inv in Hrun as [(? & w4 & _ & [=])|(? & _ & [=])].
Qed.

End ServiceCreates.


Lemma AWSVolumeService_create_none_keeps_volume_witness :
  exists args,
    List.filter is_mutating
      (since Demo.start
         (AWSVolumeService_create Demo.aws_plain "data" (Some 1%Z) Demo.zone_a
            None None None Demo.start).2)
    = [Ec2Call "create_volume" args].
Proof.
  apply (AWSVolumeService_create_none_keeps_volume Demo.aws_plain "data" Demo.zone_a
           (Some 1%Z) None None None Demo.start).
  reflexivity.
Defined.


(** * More of topology resolution *)

Section Resolution.
Context (provider : Provider).

Lemma deduce_first (vpc : Vpc) (zone_id : option string) (sn : Subnet)
    (rest : list Subnet) (w : World) :
  truthy zone_id = false ->
  subnets vpc = sn :: rest ->
  _deduce_subnet_and_zone (Some vpc) zone_id w
    = (Ok (Some (id_of sn), Some (availability_zone sn)),
       record (VpcSubnets (id_of vpc)) w).
Proof.
  intros Hz Hs. unfold _deduce_subnet_and_zone. rewrite Hz.
  unfold bind, attr_of, ret, emit. simpl. by rewrite Hs.
Qed.

Lemma resolve_default_run (subnet_id zone_id : option string)
    (groups : SecurityGroups) (w : World) (pre : list Vpc) (vpc : Vpc)
    (post : list Vpc) (sn : Subnet) (rest : list Subnet) :
  truthy subnet_id = false ->
  truthy zone_id = false ->
  truthy_groups groups = false ->
  on_limit (network provider) w = Replied (pre ++ vpc :: post) ->
  Forall (fun v => is_default v = false) pre ->
  Forall (fun v => is_default v = false) post ->
  is_default vpc = true ->
  truthy_str (id_of vpc) = true ->
  subnets vpc = sn :: rest ->
  _resolve_launch_options provider subnet_id zone_id groups w
    = (Ok (Some (id_of sn), Some (availability_zone sn), []),
       record (VpcSubnets (id_of vpc)) (record (Limit (service (network provider))) w)).
Proof.
  intros Hsn Hz Hg Hlist Hpre Hpost Hdef Hid Hsubs.
  unfold _resolve_launch_options. rewrite Hsn, Hg.
  erewrite bind_Ok by reflexivity. erewrite bind_Ok by reflexivity.
  cbv beta iota zeta. rewrite Hsn. cbn [negb andb].
  erewrite bind_Ok; cycle 1.
  { erewrite bind_Ok by (rewrite list_eq, Hlist; reflexivity).
    erewrite bind_Ok; cycle 1.
    { rewrite for_each_app. erewrite bind_Ok by (by apply for_each_not_default).
      simpl for_each. erewrite bind_Ok; [by apply for_each_not_default|].
      unfold resolve_default_step. rewrite Hdef.
      erewrite bind_Ok by (by eapply deduce_first). reflexivity. }
    simpl. rewrite Hid. reflexivity. }
  reflexivity.
Qed.

(** Neither subnet nor zone nor security groups: the one default network
    of the account decides, here when it heads the provider's list of
    networks.  Resolution answers its first subnet and that subnet's
    zone, with no security group, after listing the networks and reading
    the subnets of the default one. *)
Theorem resolve_default_network (subnet_id zone_id : option string)
    (groups : SecurityGroups) (w : World) (vpc : Vpc)
    (post : list Vpc) (sn : Subnet) (rest : list Subnet) :
  truthy subnet_id = false ->
  truthy zone_id = false ->
  truthy_groups groups = false ->
  on_limit (network provider) w = Replied (vpc :: post) ->
  Forall (fun v => is_default v = false) post ->
  is_default vpc = true ->
  truthy_str (id_of vpc) = true ->
  subnets vpc = sn :: rest ->
  _resolve_launch_options provider subnet_id zone_id groups w
    = (Ok (Some (id_of sn), Some (availability_zone sn), []),
       record (VpcSubnets (id_of vpc)) (record (Limit (service (network provider))) w)).
Proof.
  intros Hsn Hz Hg Hlist Hpost Hdef Hid Hsubs.
  eapply (resolve_default_run subnet_id zone_id groups w []); eauto.
Qed.

(** No subnet, no security groups, and no default network in the list
    (or the listing failed, which reads as an empty list): resolution
    fails with the Configuration error that asks for a subnet, after the
    one listing. *)
Theorem resolve_no_default_network (subnet_id zone_id : option string)
    (groups : SecurityGroups) (w : World) :
  truthy subnet_id = false ->
  truthy_groups groups = false ->
  match on_limit (network provider) w with
  | Replied l => Forall (fun v => is_default v = false) l
  | Failed => True
  end ->
  _resolve_launch_options provider subnet_id zone_id groups w
    = (Raise (AttributeError NoDefaultVPC),
       record (Limit (service (network provider))) w) /\
  classify (AttributeError NoDefaultVPC) = Some Configuration.
Proof.
  intros Hsn Hg Hlist. split; [|done].
  unfold _resolve_launch_options. rewrite Hsn, Hg.
  erewrite bind_Ok by reflexivity. erewrite bind_Ok by reflexivity.
  cbv beta iota zeta. rewrite Hsn. cbn [negb andb].
  apply bind_Raise.
  erewrite bind_Ok by apply list_eq.
  erewrite bind_Ok; cycle 1.
  { apply for_each_not_default. by destruct (on_limit _ _). }
  reflexivity.
Qed.
End Resolution.

Lemma resolve_default_network_witness :
  _resolve_launch_options (Demo.account RefreshCallable [Demo.vpc1; Demo.vpc2])
    None None NoGroups Demo.start
    = (Ok (Some "subnet-a1", Some Demo.zone_a, []),
       record (VpcSubnets "vpc-1") (record (Limit "vpcs") Demo.start)).
Proof.
  apply (resolve_default_network (Demo.account RefreshCallable [Demo.vpc1; Demo.vpc2])
           None None NoGroups Demo.start Demo.vpc1 [Demo.vpc2]
           Demo.subnet_a1 [Demo.subnet_a2]); try reflexivity.
  by repeat constructor.
Defined.

Lemma resolve_no_default_network_witness :
  _resolve_launch_options (Demo.account RefreshCallable [Demo.vpc2])
    None (Some Demo.zone_b) NoGroups Demo.start
    = (Raise (AttributeError NoDefaultVPC), record (Limit "vpcs") Demo.start) /\
  classify (AttributeError NoDefaultVPC) = Some Configuration.
Proof.
  apply (resolve_no_default_network (Demo.account RefreshCallable [Demo.vpc2])
           None (Some Demo.zone_b) NoGroups Demo.start); try reflexivity.
  by repeat constructor.
Defined.

Lemma get_of_fst {Raw} `{Resource Raw} (self : EC2ServiceFilter Raw)
    (val filter_name : string) (o : option Raw) (w : World) :
  (get self val filter_name true w).1 = Ok o ->
  get self val filter_name true w
    = (Ok o, record (Filter (service self) filter_name val) w).
Proof. rewrite get_eq. cbn [fst]. by intros [= ->]. Qed.

Section GroupResolution.
Context (provider : Provider).

Lemma for_each_groups_outside_vpc (gs : list SecGroup)
    (st : list string * option string * option string) (w : World) :
  (forall w' g', In g' gs ->
     exists sg, (get (security_groups provider) (id_of g') "group-id" true w').1
                  = Ok (Some sg) /\ truthy (sg_vpc_id sg) = false) ->
  exists w', for_each (resolve_sg_step provider) (map id_of gs) st w = (Ok st, w').
Proof.
  revert w. induction gs as [|g gs IH]; intros w Hall; simpl; [by eexists|].
  destruct (Hall w g (or_introl eq_refl)) as (sg & Hsg & Hvpc).
  rewrite get_eq in Hsg. cbn [fst] in Hsg. injection Hsg as Hsg.
  destruct (IH (record (Filter (service (security_groups provider))
                               "group-id" (id_of g)) w)) as [w' Hw'].
  { intros w0 g' Hin. apply Hall. by right. }
  exists w'. erewrite bind_Ok; [exact Hw'|].
  unfold resolve_sg_step. destruct st as [[sg_ids sn] z].
  erewrite bind_Ok by (rewrite get_eq, Hsg; reflexivity).
  erewrite bind_Ok by reflexivity. by rewrite Hvpc.
Qed.

(** Security groups of which none lies in a network, and no subnet:
    resolution fails with the Conflict error that the groups must be
    associated with a network. *)
Theorem resolve_groups_outside_vpc (subnet_id zone_id : option string)
    (g : SecGroup) (l : list SecGroup) (w : World) :
  truthy subnet_id = false ->
  (forall w' g', In g' (g :: l) ->
     exists sg, (get (security_groups provider) (id_of g') "group-id" true w').1
                  = Ok (Some sg) /\ truthy (sg_vpc_id sg) = false) ->
  (_resolve_launch_options provider subnet_id zone_id (GroupObjects (g :: l)) w).1
    = Raise (AttributeError MustBeInVPC) /\
  classify (AttributeError MustBeInVPC) = Some Conflict.
Proof.
  intros Hsn Hall. split; [|done].
  destruct (for_each_groups_outside_vpc (g :: l) ([], subnet_id, zone_id) w Hall)
    as [w' Hloop].
  unfold _resolve_launch_options. rewrite Hsn. cbn [truthy_groups].
  erewrite bind_Ok by reflexivity.
  erewrite bind_Raise; [reflexivity|].
  erewrite bind_Ok by reflexivity.
  cbn [negb]. erewrite bind_Ok by exact Hloop.
  cbn [fst snd]. by rewrite Hsn.
Qed.

(** Two security groups with different ids that both lie in a network,
    and no subnet, when the first one's network yields a subnet:
    resolution fails with the Conflict error of multiple matches, also
    when both groups lie in the same network. *)
Theorem resolve_two_groups_conflict (subnet_id zone_id : option string)
    (g1 g2 : SecGroup) (l : list SecGroup) (s1 s2 : SecGroup) (vpc : Vpc)
    (sn : Subnet) (rest : list Subnet) (w : World) :
  truthy subnet_id = false ->
  truthy zone_id = false ->
  id_of g1 <> id_of g2 ->
  (forall w', (get (security_groups provider) (id_of g1) "group-id" true w').1
              = Ok (Some s1)) ->
  (forall w', (get (security_groups provider) (id_of g2) "group-id" true w').1
              = Ok (Some s2)) ->
  truthy (sg_vpc_id s1) = true ->
  truthy (sg_vpc_id s2) = true ->
  (forall w', (get (network provider) (str_value (sg_vpc_id s1)) "vpc-id" true w').1
              = Ok (Some vpc)) ->
  subnets vpc = sn :: rest ->
  (_resolve_launch_options provider subnet_id zone_id
     (GroupObjects (g1 :: g2 :: l)) w).1 = Raise (ValueError MultipleMatches) /\
  classify (ValueError MultipleMatches) = Some Conflict.
Proof.
  intros Hsn Hz Hne H1 H2 Hv1 Hv2 Hnet Hsubs. split; [|done].
  assert (Hstep1 : exists w1,
            resolve_sg_step provider ([], subnet_id, zone_id) (id_of g1) w
            = (Ok ([id_of g1], Some (id_of sn), Some (availability_zone sn)), w1)).
  { unfold resolve_sg_step.
    erewrite bind_Ok by (apply get_of_fst; apply H1).
    erewrite bind_Ok by reflexivity. rewrite Hv1.
    erewrite bind_Ok by reflexivity.
    erewrite bind_Ok by (apply get_of_fst; apply Hnet).
    erewrite bind_Ok by (by eapply deduce_first). by eexists. }
  destruct Hstep1 as [w1 Hstep1].
  assert (Hstep2 : exists w2,
            resolve_sg_step provider
              ([id_of g1], Some (id_of sn), Some (availability_zone sn)) (id_of g2) w1
            = (Raise (ValueError MultipleMatches), w2)).
  { unfold resolve_sg_step.
    erewrite bind_Ok by (apply get_of_fst; apply H2).
    erewrite bind_Ok by reflexivity. rewrite Hv2.
    unfold str_in. simpl existsb.
    rewrite (proj2 (String.eqb_neq _ _)) by congruence. simpl.
    erewrite bind_Raise by reflexivity. by eexists. }
  destruct Hstep2 as [w2 Hstep2].
  unfold _resolve_launch_options. rewrite Hsn. cbn [truthy_groups].
  erewrite bind_Ok by reflexivity.
  erewrite bind_Raise; [reflexivity|].
  erewrite bind_Ok by reflexivity.
  cbn [negb]. erewrite bind_Raise; [reflexivity|].
  simpl map. simpl for_each.
  erewrite bind_Ok by exact Hstep1.
  erewrite bind_Raise by exact Hstep2. reflexivity.
Qed.

(** A subnet and security groups by name: the names are looked up among
    the groups of the subnet's network only, and resolution answers the
    ids of the groups so named, in the provider's order; a name that no
    group of that network carries is passed over without an error. *)
Theorem resolve_group_names_in_subnet (sid : string) (zone_id : option string)
    (n : string) (ns : list string) (w : World) (sn : Subnet) (rest : list Subnet)
    (sgs : list SecGroup) :
  truthy (Some sid) = true ->
  on_get_all_subnets provider w sid = Replied (sn :: rest) ->
  truthy zone_id = false \/ zone_id = Some (availability_zone sn) ->
  on_get_all_security_groups provider (record (GetAllSubnets sid) w)
    (if truthy_str (sn_vpc_id sn) then Some (sn_vpc_id sn) else None) = Replied sgs ->
  _resolve_launch_options provider (Some sid) zone_id (GroupNames (n :: ns)) w
    = (Ok (Some sid, zone_id,
           map id_of (List.filter (fun sg => str_in (sg_name sg) (n :: ns)) sgs)),
       record (GetAllSecurityGroups
                 (if truthy_str (sn_vpc_id sn) then Some (sn_vpc_id sn) else None))
              (record (GetAllSubnets sid) w)).
Proof.
  intros Hsid Hsn Hzone Hsgs. unfold _resolve_launch_options.
  rewrite Hsid. cbn [truthy_groups].
  erewrite bind_Ok; cycle 1.
  { erewrite bind_Ok by (unfold call; simpl str_value; rewrite Hsn; reflexivity).
    erewrite bind_Ok by reflexivity.
    assert (Hz : truthy zone_id
                 && negb (bool_decide (Some (availability_zone sn) = zone_id)) = false).
    { destruct Hzone as [-> | ->]; [done|].
      rewrite bool_decide_eq_true_2 by done. by rewrite andb_false_r. }
    rewrite Hz. reflexivity. }
  erewrite bind_Ok; cycle 1.
  { erewrite bind_Ok; cycle 1.
    { unfold _process_security_groups. cbn [truthy].
      erewrite bind_Ok by (unfold call; rewrite Hsgs; reflexivity). reflexivity. }
    cbn [negb]. erewrite bind_Ok by reflexivity.
    cbn [fst snd]. rewrite Hsid. reflexivity. }
  cbv beta iota zeta. rewrite Hsid. reflexivity.
Qed.
End GroupResolution.

Lemma resolve_groups_outside_vpc_witness :
  (_resolve_launch_options (Demo.steady_account [Demo.sg_classic] [Demo.vpc1])
     None None (GroupObjects [Demo.sg_classic]) Demo.start).1
    = Raise (AttributeError MustBeInVPC) /\
  classify (AttributeError MustBeInVPC) = Some Conflict.
Proof.
  apply (resolve_groups_outside_vpc (Demo.steady_account [Demo.sg_classic] [Demo.vpc1])
           None None Demo.sg_classic [] Demo.start); [reflexivity|].
  intros w' g' [<-|[]]. exists Demo.sg_classic. split; reflexivity.
Defined.

Lemma resolve_two_groups_conflict_witness :
  sg_vpc_id Demo.sg1 = sg_vpc_id Demo.sg2 /\
  (_resolve_launch_options (Demo.steady_account [Demo.sg1; Demo.sg2] [Demo.vpc1])
     None None (GroupObjects [Demo.sg1; Demo.sg2]) Demo.start).1
    = Raise (ValueError MultipleMatches) /\
  classify (ValueError MultipleMatches) = Some Conflict.
Proof.
  split; [reflexivity|].
  apply (resolve_two_groups_conflict
           (Demo.steady_account [Demo.sg1; Demo.sg2] [Demo.vpc1])
           None None Demo.sg1 Demo.sg2 [] Demo.sg1 Demo.sg2 Demo.vpc1
           Demo.subnet_a1 [Demo.subnet_a2] Demo.start);
    try reflexivity.
  discriminate.
Defined.

Lemma resolve_group_names_in_subnet_witness :
  _resolve_launch_options Demo.aws (Some "subnet-a1") None
    (GroupNames ["web"; "ghost"]) Demo.start
    = (Ok (Some "subnet-a1", None, ["sg-1"]),
       record (GetAllSecurityGroups (Some "vpc-1"))
              (record (GetAllSubnets "subnet-a1") Demo.start)).
Proof.
  apply (resolve_group_names_in_subnet Demo.aws "subnet-a1" None "web" ["ghost"]
           Demo.start Demo.subnet_a1 [] [Demo.sg1]); try reflexivity.
  by left.
Defined.

(** * More of the launch *)

Lemma filter_before_launch (t : list Event) :
  Forall before_launch t -> List.filter is_run_instances t = [].
Proof.
  induction 1 as [|e t He _ IH]; simpl; [done|].
  unfold before_launch in He. by rewrite He.
Qed.

Section Launch.
Context (provider : Provider).

(** The calls after [run_instances] answers: none of them launches. *)
Lemma issues_after_run (name : string) (reservation : option Reservation) :
  issues before_launch any_error
    (match reservation with
     | Some reservation =>
         sleep 2 ;;;
         instance <- item0 (instances reservation) ;;
         emit (SetAttr instance "name" (Some name)) ;;;
         ret (Some instance)
     | None => ret None
     end).
Proof.
  destruct reservation as [res|]; [|apply issues_ret].
  apply issues_bind; [by apply issues_sleep|intros _].
  apply issues_bind; [by apply issues_item0|intros i].
  apply issues_bind; [by apply issues_emit|intros _]. apply issues_ret.
Qed.

(** A launch calls [run_instances] at most once, whatever it is given and
    however it ends: the call is never repeated. *)
Theorem launch_runs_at_most_once (name image instance_type : string)
    (zone key_pair : option string) (groups : SecurityGroups)
    (user_data : option string) (launch_config : option LaunchConfig) (w : World) :
  length (List.filter is_run_instances
            (since w (AWSInstanceService_create provider name image instance_type
                        zone key_pair groups user_data launch_config w).2)) <= 1.
Proof.
  destruct (AWSInstanceService_create _ _ _ _ _ _ _ _ _ w) as [r w'] eqn:Hrun.
  cbn [snd]. unfold AWSInstanceService_create in Hrun.
  assert (Hbdm : issues before_launch any_error
            (match launch_config with
             | Some lc =>
                 bdm <- _process_block_device_mappings provider lc zone ;;
                 ret (Some bdm, _get_net_id lc)
             | None => ret (None, None)
             end)).
  { destruct launch_config as [lc|]; [|apply issues_ret].
    apply issues_bind; [|intros; apply issues_ret].
    eapply issues_weaken; [apply issues_process_block_device_mappings|done|done]. }
  apply bind_inv in Hrun as [(bs & w1 & H1 & Hrun)|(e & H1 & _)].
  - destruct (Hbdm _ _ _ H1) as [(t1 & T1 & F1) _].
    apply bind_inv in Hrun as [(rs & w2 & H2 & Hrun)|(e & H2 & _)].
    + destruct (issues_resolve_launch_options provider _ _ _ _ _ _ H2)
        as [(t2 & T2 & F2) _].
      destruct rs as [[subnet_id zone_id] sg_ids].
      apply bind_inv in Hrun as [(res & w3 & H3 & Hrun)|(e & H3 & _)].
      * destruct (issues_after_run name res _ _ _ Hrun) as [(t4 & T4 & F4) _].
        unfold call in H3. destruct (on_run_instances _ _ _); [|done].
        injection H3 as _ <-.
        rewrite (since_app w w' (t1 ++ t2 ++ [RunInstances _] ++ t4))
          by (rewrite T4; simpl; rewrite T2, T1, <- !app_assoc; reflexivity).
        rewrite !List.filter_app, (filter_before_launch t1 F1),
          (filter_before_launch t4 F4).
        rewrite (filter_before_launch t2)
          by (eapply Forall_impl; [exact F2|apply read_only_before_launch]).
        simpl. lia.
      * unfold call in H3. destruct (on_run_instances _ _ _); [done|].
        injection H3 as _ <-.
        rewrite (since_app w _ (t1 ++ t2 ++ [RunInstances _]))
          by (simpl; rewrite T2, T1, <- !app_assoc; reflexivity).
        rewrite !List.filter_app, (filter_before_launch t1 F1).
        rewrite (filter_before_launch t2)
          by (eapply Forall_impl; [exact F2|apply read_only_before_launch]).
        simpl. lia.
    + destruct (issues_resolve_launch_options provider _ _ _ _ _ _ H2)
        as [(t2 & T2 & F2) _].
      rewrite (since_app w w' (t1 ++ t2)) by (by rewrite T2, T1, <- app_assoc).
      rewrite List.filter_app, (filter_before_launch t1 F1).
      rewrite (filter_before_launch t2)
        by (eapply Forall_impl; [exact F2|apply read_only_before_launch]).
      simpl. lia.
  - destruct (Hbdm _ _ _ H1) as [(t1 & T1 & F1) _].
    rewrite (since_app w w' t1 T1), (filter_before_launch t1 F1). simpl. lia.
Qed.

(** A launch with nothing but an image and a type, into an account whose
    default network heads the list of networks: after the listing and
    the read of that network's subnets, [run_instances] is called with
    the first subnet of the default network, that subnet's zone, no
    security group and no block device mapping; whatever the provider
    answers, nothing that follows is another launch. *)
Theorem launch_into_default_network (name image instance_type : string)
    (key_pair user_data : option string) (w : World) (vpc : Vpc)
    (post : list Vpc) (sn : Subnet) (rest : list Subnet) :
  on_limit (network provider) w = Replied (vpc :: post) ->
  Forall (fun v => is_default v = false) post ->
  is_default vpc = true ->
  truthy_str (id_of vpc) = true ->
  subnets vpc = sn :: rest ->
  exists after,
    since w (AWSInstanceService_create provider name image instance_type None key_pair
               NoGroups user_data None w).2
      = [Limit (service (network provider)); VpcSubnets (id_of vpc);
         RunInstances
           {| ra_image_id := image; ra_instance_type := instance_type;
              ra_placement := Some (availability_zone sn); ra_key_name := key_pair;
              ra_security_group_ids := []; ra_user_data := user_data;
              ra_block_device_map := None; ra_subnet_id := Some (id_of sn) |}]
        ++ after /\
    Forall before_launch after.
Proof.
  intros Hlist Hpost Hdef Hid Hsubs.
  destruct (AWSInstanceService_create provider name image instance_type None key_pair
              NoGroups user_data None w) as [r w'] eqn:Hrun.
  cbn [snd]. unfold AWSInstanceService_create in Hrun.
  erewrite bind_Ok in Hrun by reflexivity. cbn [fst snd] in Hrun.
  erewrite bind_Ok in Hrun
    by (eapply (resolve_default_run provider None None NoGroups w []); eauto).
  cbv beta iota zeta in Hrun.
  apply bind_inv in Hrun as [(res & w3 & H3 & Hrun)|(e & H3 & _)].
  - destruct (issues_after_run name res _ _ _ Hrun) as [(t4 & T4 & F4) _].
    unfold call in H3. destruct (on_run_instances _ _ _); [|done].
    injection H3 as _ <-.
    exists t4. split; [|done]. apply since_app. rewrite T4. simpl.
    by rewrite <- !app_assoc.
  - unfold call in H3. destruct (on_run_instances _ _ _); [done|].
    injection H3 as _ <-.
    exists []. split; [|constructor]. apply since_app. simpl.
    by rewrite <- !app_assoc.
Qed.
End Launch.

(** Topology resolution only reads: whatever it is given and however it
    ends, none of the calls it issues changes anything at the provider. *)
Theorem resolution_only_reads (provider : Provider) (subnet_id zone_id : option string)
    (groups : SecurityGroups) (w : World) :
  Forall read_only
    (since w (_resolve_launch_options provider subnet_id zone_id groups w).2).
Proof.
  destruct (_resolve_launch_options provider subnet_id zone_id groups w)
    as [r w'] eqn:Hrun.
  destruct (issues_resolve_launch_options provider _ _ _ _ _ _ Hrun)
    as [(t & Ht & Hread) _].
  cbn [snd]. by rewrite (since_app w w' t Ht).
Qed.

Lemma launch_into_default_network_witness :
  exists after,
    since Demo.start
      (AWSInstanceService_create Demo.aws "web-1" "ami-1" "t2.micro" None None
         NoGroups None None Demo.start).2
      = [Limit "vpcs"; VpcSubnets "vpc-1";
         RunInstances
           {| ra_image_id := "ami-1"; ra_instance_type := "t2.micro";
              ra_placement := Some Demo.zone_a; ra_key_name := None;
              ra_security_group_ids := []; ra_user_data := None;
              ra_block_device_map := None; ra_subnet_id := Some "subnet-a1" |}]
        ++ after /\
    Forall before_launch after.
Proof.
  apply (launch_into_default_network Demo.aws "web-1" "ami-1" "t2.micro" None None
           Demo.start Demo.vpc1 [] Demo.subnet_a1 [Demo.subnet_a2]);
    try reflexivity; constructor.
Defined.

(** * More of the block device mapping *)

Lemma slots_roots (vols : list Device) (letters : list Ascii.ascii) :
  Forall (fun d => is_root d = true) vols ->
  slots vols letters = Some (replicate (length vols) "/dev/sda1").
Proof.
  induction 1 as [|d vols Hd _ IH]; simpl; [done|]. by rewrite Hd, IH.
Qed.

Lemma insert_all_same (key : string) (bds : list BlockDeviceType)
    (bd : BlockDeviceType) (m : BlockDeviceMapping) :
  last bds = Some bd ->
  insert_all (zip (replicate (length bds) key) bds) m = <[key := bd]> m.
Proof.
  revert m. induction bds as [|b bds IH]; intros m; [done|].
  rewrite last_cons. unfold insert_all in *. simpl.
  destruct (last bds) as [b'|] eqn:Hl.
  - intros [= ->]. rewrite (IH _ eq_refl). apply insert_insert_eq.
  - intros [= ->]. apply last_None in Hl as ->. done.
Qed.

Lemma Forall2_describes_last (vols : list Device) (bds : list BlockDeviceType)
    (r : Device) :
  Forall2 describes vols bds -> last vols = Some r ->
  exists bd, last bds = Some bd /\ describes r bd.
Proof.
  induction 1 as [|d bd vols bds Hd Hrest IH]; [done|].
  rewrite !last_cons. destruct (last vols) as [r'|] eqn:Hl.
  - intros [= ->]. destruct (IH eq_refl) as (bd' & -> & Hbd'). by exists bd'.
  - intros [= ->]. apply last_None in Hl as ->.
    apply Forall2_nil_inv_l in Hrest as ->. by exists bd.
Qed.

Lemma slots_enough (vols : list Device) (letters : list Ascii.ascii)
    (keys : list string) :
  slots vols letters = Some keys ->
  length (List.filter (fun d => negb (is_root d)) vols) <= length letters.
Proof.
  revert letters keys. induction vols as [|d vols IH]; intros letters keys; simpl.
  - lia.
  - destruct (is_root d); simpl.
    + destruct (slots vols letters) eqn:Hs; [|done]. intros _. by eapply IH.
    + destruct letters as [|c rest]; [done|].
      destruct (slots vols rest) eqn:Hs; [|done]. intros _.
      apply IH in Hs. simpl. lia.
Qed.

Lemma filter_not_root (l : list Device) :
  List.filter (fun d => negb (is_root d)) (List.filter is_volume l)
  = List.filter nonroot_volume l.
Proof.
  induction l as [|x l IH]; simpl; [done|]. unfold nonroot_volume at 1.
  destruct (is_volume x); simpl; [|done]. destruct (is_root x); simpl; by rewrite IH.
Qed.

Section MoreBlockDevices.
Context (provider : Provider).

Lemma process_block_device_mappings_inv launch_config zone w m :
  (_process_block_device_mappings provider launch_config zone w).1 = Ok m ->
  exists keys bds,
    slots (List.filter is_volume (block_devices launch_config))
          (drop 6 (String.list_ascii_of_string ascii_lowercase)) = Some keys /\
    Forall2 describes (List.filter is_volume (block_devices launch_config)) bds /\
    length keys = length bds /\
    m = insert_all (zip keys bds) ∅.
Proof.
  unfold _process_block_device_mappings. intros Hrun.
  destruct (bind _ _ w) as [res w'] eqn:Hbind. simpl in Hrun. subst res.
  apply bind_inv in Hbind as [(st' & w1 & Hloop & [= <- _])|(? & _ & [=])].
  apply for_each_process_device in Hloop as (keys & bds & Hs & Hf & Hl & -> & _).
  by exists keys, bds.
Qed.

(** Several root volumes share the one name [/dev/sda1]: when all the
    volumes of a launch configuration are root volumes, the mapping has
    that single entry, and it describes the last of them. *)
Theorem last_root_volume_wins (launch_config : LaunchConfig) (zone : option string)
    (w : World) (m : BlockDeviceMapping) (r : Device) :
  (_process_block_device_mappings provider launch_config zone w).1 = Ok m ->
  Forall (fun d => is_root d = true)
         (List.filter is_volume (block_devices launch_config)) ->
  last (List.filter is_volume (block_devices launch_config)) = Some r ->
  exists bd, m = {[ "/dev/sda1" := bd ]} /\ describes r bd.
Proof.
  intros Hrun Hroots Hlast.
  apply process_block_device_mappings_inv in Hrun as (keys & bds & Hs & Hf & Hl & ->).
  rewrite (slots_roots _ _ Hroots) in Hs. injection Hs as <-.
  destruct (Forall2_describes_last _ _ _ Hf Hlast) as (bd & Hbd & Hdesc).
  exists bd. split; [|done].
  rewrite (Forall2_length _ _ _ Hf). rewrite (insert_all_same _ _ bd) by done.
  apply insert_empty.
Qed.

(** A mapping is built only for a launch configuration with at most 20
    volumes besides the root ones: there is one letter each, g to z. *)
Theorem mapping_needs_letters (launch_config : LaunchConfig) (zone : option string)
    (w : World) (m : BlockDeviceMapping) :
  (_process_block_device_mappings provider launch_config zone w).1 = Ok m ->
  length (List.filter nonroot_volume (block_devices launch_config)) <= 20.
Proof.
  intros Hrun.
  apply process_block_device_mappings_inv in Hrun as (keys & bds & Hs & _).
  apply slots_enough in Hs. by rewrite filter_not_root in Hs.
Qed.

Lemma returns_volume_unconfirmed name size zone snapshot iops description :
  can_refresh (iface_refresh (volumes provider)) = false ->
  returns (fun res => res = None)
          (AWSVolumeService_create provider name size zone snapshot iops description).
Proof.
  intros Hno. unfold AWSVolumeService_create.
  eapply returns_bind; [apply returns_any|intros res _].
  eapply returns_bind; [apply returns_any|intros r _].
  eapply returns_bind; [by apply returns_wait_for_create|intros ok ->].
  by apply returns_ret.
Qed.

Lemma for_each_blank_never_returns zone (devs : list Device) (d : Device) st :
  can_refresh (iface_refresh (volumes provider)) = false ->
  In d devs -> blank_volume d = true ->
  returns (fun _ => False) (for_each (process_device provider zone) devs st).
Proof.
  intros Hno Hin Hd. revert st. induction devs as [|x devs IH]; intros st; [done|].
  simpl. destruct Hin as [->|Hin].
  - eapply (returns_bind (fun _ => False)); [|by intros ? []].
    unfold process_device. unfold blank_volume in Hd.
    apply andb_prop in Hd as [-> Hsrc].
    eapply returns_bind; [apply returns_any|intros slot _].
    eapply (returns_bind (fun _ => False)); [|by intros ? []].
    unfold resolve_source. destruct (source d); try done.
    destruct (negb _); [apply returns_raise|].
    eapply returns_bind; [by apply returns_volume_unconfirmed|].
    intros v ->. eapply (returns_bind (fun _ => False)); [apply returns_raise|by intros ? []].
  - eapply returns_bind; [apply returns_any|]. intros st' _. by apply IH.
Qed.

(** When the volume class has no callable [refresh], a launch whose
    configuration holds a blank volume never succeeds, with or without a
    zone, and never reaches [run_instances].  It ends in an error of the
    mapping: the letters used up; without a zone, the Configuration
    error; with one, the provider's failure or the read of an attribute
    of [None]. *)
Theorem launch_with_blank_volume_never_succeeds (name image instance_type : string)
    (zone key_pair : option string) (groups : SecurityGroups)
    (user_data : option string) (launch_config : LaunchConfig) (d : Device)
    (w : World) :
  can_refresh (iface_refresh (volumes provider)) = false ->
  In d (block_devices launch_config) ->
  blank_volume d = true ->
  exists e w',
    AWSInstanceService_create provider name image instance_type zone key_pair
      groups user_data (Some launch_config) w = (Raise e, w') /\
    List.filter is_run_instances (since w w') = [] /\
    mapping_error zone e.
Proof.
  intros Hno Hin Hd.
  destruct (_process_block_device_mappings provider launch_config zone w)
    as [r w'] eqn:Hrun.
  destruct (errors_process_block_device_mappings provider _ _ _ _ _ Hrun)
    as [(t & Ht & Hbefore) Herr].
  destruct r as [m|e].
  - exfalso. unfold _process_block_device_mappings in Hrun.
    apply bind_inv in Hrun as [(st' & w1 & Hloop & _)|(? & _ & [=])].
    by eapply (for_each_blank_never_returns zone _ d _ Hno Hin Hd).
  - exists e, w'. split_and!.
    + unfold AWSInstanceService_create. apply bind_Raise. by apply bind_Raise.
    + by rewrite (since_app w w' t Ht), (filter_before_launch t Hbefore).
    + by apply Herr.
Qed.

(** A launch configuration of one blank volume, with a zone: the volume
    is created through [AWSVolumeService.create] with an empty name, the
    size of the device and the zone of the caller, and the mapping has the
    one entry that names the volume created. *)
Theorem blank_volume_is_created (zone : string) (d : Device)
    (nics : list string) (w w1 : World) (v : Volume) :
  truthy (Some zone) = true ->
  blank_volume d = true ->
  AWSVolumeService_create provider EmptyString (size d) zone None None None w
    = (Ok (Some v), w1) ->
  exists bd,
    _process_block_device_mappings provider
      {| block_devices := [d]; network_interfaces := nics |} (Some zone) w
      = (Ok {[ (if is_root d then "/dev/sda1" else "sdg") := bd ]}, w1) /\
    bd_volume_id bd = Some (id_of v) /\ describes d bd.
Proof.
  intros Hz Hd Hvol. unfold blank_volume in Hd.
  apply andb_prop in Hd as [Hv Hsrc].
  destruct (source d) eqn:Hs; try done.
  assert (Hsource : resolve_source provider d (Some zone) new_bd_type w
                    = (Ok (set_volume_id (id_of v) new_bd_type), w1)).
  { unfold resolve_source. rewrite Hs, Hz. cbn [negb str_value default].
    erewrite bind_Ok by exact Hvol. by erewrite bind_Ok by reflexivity. }
  assert (Hdesc : describes d
            (if truthy_int (size d)
             then set_size (default 0%Z (size d))
                    (set_delete_on_terminate (delete_on_terminate d)
                       (set_volume_id (id_of v) new_bd_type))
             else set_delete_on_terminate (delete_on_terminate d)
                    (set_volume_id (id_of v) new_bd_type))).
  { unfold describes. rewrite Hs.
    destruct (truthy_int (size d)) eqn:Hsz; simpl; split_and!; try done.
    destruct (size d); [done|discriminate]. }
  eexists. split; [|split; [|exact Hdesc]]; [|by destruct (truthy_int (size d))].
  unfold _process_block_device_mappings. simpl for_each.
  destruct (is_root d) eqn:Hr.
  - erewrite bind_Ok; cycle 1.
    { erewrite bind_Ok; cycle 1.
      { unfold process_device. rewrite Hv, Hr.
        erewrite bind_Ok by reflexivity. erewrite bind_Ok by exact Hsource.
        reflexivity. }
      reflexivity. }
    unfold ret. cbn [fst snd bdm]. by rewrite insert_empty.
  - erewrite bind_Ok; cycle 1.
    { erewrite bind_Ok; cycle 1.
      { unfold process_device. rewrite Hv, Hr.
        cbn [next_letter drop String.list_ascii_of_string ascii_lowercase].
        erewrite bind_Ok by reflexivity. erewrite bind_Ok by exact Hsource.
        reflexivity. }
      reflexivity. }
    unfold ret. cbn [fst snd bdm]. by rewrite insert_empty.
Qed.
End MoreBlockDevices.

Lemma last_root_volume_wins_witness :
  exists bd,
    ({[ "/dev/sda1" := Demo.root_entry_of Demo.other_root ]} : BlockDeviceMapping)
      = {[ "/dev/sda1" := bd ]} /\
    describes Demo.other_root bd.
Proof.
  apply (last_root_volume_wins Demo.aws
           (Demo.config [Demo.snapshot_disk true; Demo.ephemeral_disk; Demo.other_root] [])
           None Demo.start).
  - vm_compute. reflexivity.
  - by repeat constructor.
  - reflexivity.
Defined.

Lemma mapping_needs_letters_witness :
  length (List.filter nonroot_volume (block_devices Demo.three_volumes)) <= 20.
Proof.
  apply (mapping_needs_letters Demo.aws Demo.three_volumes None Demo.start
           (<["sdh" := Demo.snapshot_entry]>
              (<["/dev/sda1" := Demo.snapshot_entry]>
                 (<["sdg" := Demo.snapshot_entry]> ∅)) : BlockDeviceMapping)).
  vm_compute. reflexivity.
Defined.

Lemma launch_with_blank_volume_never_succeeds_witness :
  exists e w',
    AWSInstanceService_create Demo.aws_plain "web-1" "ami-1" "t2.micro"
      (Some Demo.zone_a) None NoGroups None (Some Demo.with_blank) Demo.start
      = (Raise e, w') /\
    List.filter is_run_instances (since Demo.start w') = [] /\
    mapping_error (Some Demo.zone_a) e.
Proof.
  apply (launch_with_blank_volume_never_succeeds Demo.aws_plain "web-1" "ami-1"
           "t2.micro" (Some Demo.zone_a) None NoGroups None Demo.with_blank
           Demo.blank_disk Demo.start); [reflexivity| |reflexivity].
  right. by left.
Defined.

Lemma blank_volume_is_created_witness :
  exists bd,
    _process_block_device_mappings Demo.aws (Demo.config [Demo.blank_disk] [])
      (Some Demo.zone_a) Demo.start
      = (Ok {[ "sdg" := bd ]},
         (AWSVolumeService_create Demo.aws EmptyString (Some 10%Z) Demo.zone_a
            None None None Demo.start).2) /\
    bd_volume_id bd = Some "vol-1" /\ describes Demo.blank_disk bd.
Proof.
  apply (blank_volume_is_created Demo.aws Demo.zone_a Demo.blank_disk []
           Demo.start _ Demo.vol1); reflexivity.
Defined.
